(** * CafeManager: the in-memory table and reservation store

    A shallow embedding of [server/storage.ts] (class [MemStorage]) and of the
    normalisation step of the reservation form ([onSubmit] of
    [ReservationModal]), followed by the properties of the reservation/table
    synchronisation that the specification states.

    Conventions of the embedding.
    - A JavaScript [Map<number, V>] iterates in insertion order, [set] on a
      present key keeps its position and [delete] removes the entry: it is an
      association list, module [JsMap].
    - Integer-valued JavaScript numbers (ids, counters, guests, minutes,
      coordinates) are [Z]; the counters stay far below 2^53 in any run, so
      [n++] is [n + 1].
    - [a || b] takes [b] when [a] is falsy: [undefined], [null], the empty
      string, [0] or [false] (class [Falsy], [or_default], [or_null]).
    - The methods are a state monad over the object's four private fields.
      A call runs from start to end before the next one starts: the store
      operations are sequential (section 5 of the specification), and the
      interleaving that [await] allows between two requests is not
      modelled.
    - [new Date()] and [new Date().toISOString().split('T')[0]] read the
      clock: the instant [now] and the calendar date [today] are arguments of
      the methods that read them. *)

From Stdlib Require Import ZArith List String Bool Lia.
Import ListNotations.
Local Open Scope string_scope.
Local Open Scope list_scope.
Local Open Scope Z_scope.

Set Implicit Arguments.

(** ** Insertion-ordered maps keyed by numbers *)

Module JsMap.
Section WithValues.
Variable V : Type.

Definition t : Type := list (Z * V).

Definition empty : t := [].

Fixpoint get (k : Z) (m : t) : option V :=
  match m with
  | [] => None
  | (k', v) :: m' => if k' =? k then Some v else get k m'
  end.

(** [set] overwrites in place when the key is present and appends
    otherwise. *)
Fixpoint set (k : Z) (v : V) (m : t) : t :=
  match m with
  | [] => [(k, v)]
  | (k', v') :: m' =>
      if k' =? k then (k, v) :: m' else (k', v') :: set k v m'
  end.

(** The keys of a [Map] are distinct (see [store_ok]), so removing every
    entry under [k] removes the entry under [k]. *)
Fixpoint delete (k : Z) (m : t) : t :=
  match m with
  | [] => []
  | (k', v') :: m' =>
      if k' =? k then delete k m' else (k', v') :: delete k m'
  end.

Definition keys (m : t) : list Z := map fst m.
Definition values (m : t) : list V := map snd m.

End WithValues.
Arguments empty {V}.
End JsMap.

(** ** Falsy values and the [||] operator *)

Class Falsy (A : Type) := falsy : A -> bool.

#[export] Instance Falsy_string : Falsy string := fun s => String.eqb s EmptyString.
#[export] Instance Falsy_number : Falsy Z := fun n => n =? 0.
#[export] Instance Falsy_boolean : Falsy bool := negb.

(** [x || d] for an optional [x] ([None] is [undefined] or [null]). *)
Definition or_default {A} `{Falsy A} (x : option A) (d : A) : A :=
  match x with
  | Some v => if falsy v then d else v
  | None => d
  end.

(** [x || null]. *)
Definition or_null {A} `{Falsy A} (x : option A) : option A :=
  match x with
  | Some v => if falsy v then None else Some v
  | None => None
  end.

(** [{...old, key: u}] for one key of a partial object: a key that is absent
    keeps the old value. *)
Definition spread_key {A} (old : A) (u : option A) : A :=
  match u with
  | Some v => v
  | None => old
  end.

(** ** Records of [@shared/schema] *)

(** Modelled from the spec: the module [@shared/schema], which declares the
    types [Table], [InsertTable], [Reservation], [InsertReservation] and
    [TableWithReservations], is not among the sources.  The fields are those
    of the object literals of [createTable] and [createReservation] and of the
    form's default values; their types follow the data model of the
    specification (optional name, comment, start and end time are nullable
    strings; duration an integer; has-time-limit a boolean; status, shape and
    hall strings).  In an insert record [None] stands for [undefined] or
    [null], which [||] does not tell apart.  In a partial record [None] is an
    absent key and [Some v] a key carrying [v]. *)
Module Table.
Record t : Type := mk {
  id : Z;
  number : Z;
  name : option string;
  capacity : Z;
  x : Z;
  y : Z;
  width : Z;
  height : Z;
  status : string;
  shape : string;
  hallId : string
}.
End Table.

Module InsertTable.
Record t : Type := mk {
  number : Z;
  name : option string;
  capacity : Z;
  x : Z;
  y : Z;
  width : Z;
  height : Z;
  status : option string;
  shape : option string;
  hallId : option string
}.
End InsertTable.

Module PartialInsertTable.
Record t : Type := mk {
  number : option Z;
  name : option (option string);
  capacity : option Z;
  x : option Z;
  y : option Z;
  width : option Z;
  height : option Z;
  status : option string;
  shape : option string;
  hallId : option string
}.

(** [{ status }]. *)
Definition of_status (status : string) : t :=
  mk None None None None None None None (Some status) None None.

(** [{ ...table, ...updates }]. *)
Definition spread (table : Table.t) (updates : t) : Table.t :=
  {| Table.id := Table.id table;
     Table.number := spread_key (Table.number table) (number updates);
     Table.name := spread_key (Table.name table) (name updates);
     Table.capacity := spread_key (Table.capacity table) (capacity updates);
     Table.x := spread_key (Table.x table) (x updates);
     Table.y := spread_key (Table.y table) (y updates);
     Table.width := spread_key (Table.width table) (width updates);
     Table.height := spread_key (Table.height table) (height updates);
     Table.status := spread_key (Table.status table) (status updates);
     Table.shape := spread_key (Table.shape table) (shape updates);
     Table.hallId := spread_key (Table.hallId table) (hallId updates) |}.
End PartialInsertTable.

Module Reservation.
Record t : Type := mk {
  id : Z;
  tableId : Z;
  customerName : string;
  customerPhone : string;
  guests : Z;
  date : string;
  time : string;
  duration : Z;
  comment : option string;
  status : string;
  hasTimeLimit : bool;
  startTime : option string;
  endTime : option string;
  createdAt : Z
}.
End Reservation.

Module InsertReservation.
Record t : Type := mk {
  tableId : Z;
  customerName : string;
  customerPhone : string;
  guests : Z;
  date : string;
  time : string;
  duration : option Z;
  comment : option string;
  status : option string;
  hasTimeLimit : option bool;
  startTime : option string;
  endTime : option string
}.
End InsertReservation.

Module PartialInsertReservation.
Record t : Type := mk {
  tableId : option Z;
  customerName : option string;
  customerPhone : option string;
  guests : option Z;
  date : option string;
  time : option string;
  duration : option Z;
  comment : option (option string);
  status : option string;
  hasTimeLimit : option bool;
  startTime : option (option string);
  endTime : option (option string)
}.

(** [{ comment }]. *)
Definition of_comment (comment : option string) : t :=
  mk None None None None None None None (Some comment) None None None None.

(** [{ ...reservation, ...updates }]. *)
Definition spread (reservation : Reservation.t) (updates : t) : Reservation.t :=
  {| Reservation.id := Reservation.id reservation;
     Reservation.tableId :=
       spread_key (Reservation.tableId reservation) (tableId updates);
     Reservation.customerName :=
       spread_key (Reservation.customerName reservation) (customerName updates);
     Reservation.customerPhone :=
       spread_key (Reservation.customerPhone reservation) (customerPhone updates);
     Reservation.guests :=
       spread_key (Reservation.guests reservation) (guests updates);
     Reservation.date := spread_key (Reservation.date reservation) (date updates);
     Reservation.time := spread_key (Reservation.time reservation) (time updates);
     Reservation.duration :=
       spread_key (Reservation.duration reservation) (duration updates);
     Reservation.comment :=
       spread_key (Reservation.comment reservation) (comment updates);
     Reservation.status :=
       spread_key (Reservation.status reservation) (status updates);
     Reservation.hasTimeLimit :=
       spread_key (Reservation.hasTimeLimit reservation) (hasTimeLimit updates);
     Reservation.startTime :=
       spread_key (Reservation.startTime reservation) (startTime updates);
     Reservation.endTime :=
       spread_key (Reservation.endTime reservation) (endTime updates);
     Reservation.createdAt := Reservation.createdAt reservation |}.
End PartialInsertReservation.

(** [{ ...table, currentReservation, todayReservations }]: the table's own
    fields are kept together in [table]. *)
Module TableWithReservations.
Record t : Type := mk {
  table : Table.t;
  currentReservation : option Reservation.t;
  todayReservations : list Reservation.t
}.
End TableWithReservations.

(** ** The object state and the monad of its methods *)

Record MemStorage : Type := mkMemStorage {
  tables : JsMap.t Table.t;
  reservations : JsMap.t Reservation.t;
  currentTableId : Z;
  currentReservationId : Z
}.

Definition M (A : Type) : Type := MemStorage -> A * MemStorage.

Definition ret {A} (a : A) : M A := fun this => (a, this).

Definition bind {A B} (m : M A) (k : A -> M B) : M B :=
  fun this => let (a, this') := m this in k a this'.

Definition gets {A} (f : MemStorage -> A) : M A := fun this => (f this, this).

Definition modify (f : MemStorage -> MemStorage) : M unit :=
  fun this => (tt, f this).

Declare Scope storage_scope.
Delimit Scope storage_scope with storage.
Notation "x <- m ;; k" := (bind m (fun x => k))
  (at level 61, m at next level, right associativity) : storage_scope.
Notation "m ;; k" := (bind m (fun _ => k))
  (at level 61, right associativity) : storage_scope.
Local Open Scope storage_scope.

(** [xs.forEach(body)] and [for (const x of xs) body]. *)
Fixpoint forEach {A} (xs : list A) (body : A -> M unit) : M unit :=
  match xs with
  | [] => ret tt
  | x :: xs' => body x ;; forEach xs' body
  end.

(** A loop that pushes onto a local array [acc]. *)
Fixpoint for_of {A B} (xs : list A) (acc : list B) (body : A -> M B)
  : M (list B) :=
  match xs with
  | [] => ret acc
  | x :: xs' => b <- body x ;; for_of xs' (acc ++ [b]) body
  end.

(** [this.tables.set(id, table)], [this.reservations.set(id, reservation)],
    [this.reservations.delete(id)]. *)
Definition tables_set (id : Z) (table : Table.t) : M unit :=
  modify (fun this =>
    {| tables := JsMap.set id table (tables this);
       reservations := reservations this;
       currentTableId := currentTableId this;
       currentReservationId := currentReservationId this |}).

Definition reservations_set (id : Z) (reservation : Reservation.t) : M unit :=
  modify (fun this =>
    {| tables := tables this;
       reservations := JsMap.set id reservation (reservations this);
       currentTableId := currentTableId this;
       currentReservationId := currentReservationId this |}).

Definition reservations_delete (id : Z) : M unit :=
  modify (fun this =>
    {| tables := tables this;
       reservations := JsMap.delete id (reservations this);
       currentTableId := currentTableId this;
       currentReservationId := currentReservationId this |}).

(** [this.currentTableId++] and [this.currentReservationId++]. *)
Definition post_incr_currentTableId : M Z :=
  fun this =>
    (currentTableId this,
     {| tables := tables this;
        reservations := reservations this;
        currentTableId := currentTableId this + 1;
        currentReservationId := currentReservationId this |}).

Definition post_incr_currentReservationId : M Z :=
  fun this =>
    (currentReservationId this,
     {| tables := tables this;
        reservations := reservations this;
        currentTableId := currentTableId this;
        currentReservationId := currentReservationId this + 1 |}).

(** ** Methods of [MemStorage] *)

Definition getTables : M (list Table.t) :=
  gets (fun this => JsMap.values (tables this)).

Definition getTable (id : Z) : M (option Table.t) :=
  gets (fun this => JsMap.get id (tables this)).

Definition createTable (table : InsertTable.t) : M Table.t :=
  id <- post_incr_currentTableId ;;
  let newTable :=
    {| Table.id := id;
       Table.number := InsertTable.number table;
       Table.name := or_null (InsertTable.name table);
       Table.capacity := InsertTable.capacity table;
       Table.x := InsertTable.x table;
       Table.y := InsertTable.y table;
       Table.width := InsertTable.width table;
       Table.height := InsertTable.height table;
       Table.status := or_default (InsertTable.status table) "available";
       Table.shape := or_default (InsertTable.shape table) "round";
       Table.hallId := or_default (InsertTable.hallId table) "white" |} in
  tables_set id newTable ;;
  ret newTable.

Definition updateTable (id : Z) (updates : PartialInsertTable.t)
  : M (option Table.t) :=
  table <- gets (fun this => JsMap.get id (tables this)) ;;
  match table with
  | None => ret None
  | Some table =>
      let updatedTable := PartialInsertTable.spread table updates in
      tables_set id updatedTable ;;
      ret (Some updatedTable)
  end.

Definition updateTableStatus (id : Z) (status : string) : M (option Table.t) :=
  updateTable id (PartialInsertTable.of_status status).

Definition getReservations : M (list Reservation.t) :=
  gets (fun this => JsMap.values (reservations this)).

Definition getReservation (id : Z) : M (option Reservation.t) :=
  gets (fun this => JsMap.get id (reservations this)).


Definition getReservationsByTable (tableId : Z) : M (list Reservation.t) :=
  gets (fun this =>
    filter (fun reservation => Reservation.tableId reservation =? tableId)
           (JsMap.values (reservations this))).

Definition createReservation (now : Z) (reservation : InsertReservation.t)
  : M Reservation.t :=
  id <- post_incr_currentReservationId ;;
  let newReservation :=
    {| Reservation.id := id;
       Reservation.tableId := InsertReservation.tableId reservation;
       Reservation.customerName := InsertReservation.customerName reservation;
       Reservation.customerPhone := InsertReservation.customerPhone reservation;
       Reservation.guests := InsertReservation.guests reservation;
       Reservation.date := InsertReservation.date reservation;
       Reservation.time := InsertReservation.time reservation;
       Reservation.duration :=
         or_default (InsertReservation.duration reservation) 120;
       Reservation.comment := or_null (InsertReservation.comment reservation);
       Reservation.status :=
         or_default (InsertReservation.status reservation) "active";
       Reservation.hasTimeLimit :=
         or_default (InsertReservation.hasTimeLimit reservation) false;
       Reservation.startTime :=
         or_null (InsertReservation.startTime reservation);
       Reservation.endTime := or_null (InsertReservation.endTime reservation);
       Reservation.createdAt := now |} in
  reservations_set id newReservation ;;
  (* Update table status to reserved *)
  updateTableStatus (InsertReservation.tableId reservation) "reserved" ;;
  ret newReservation.

Definition updateReservation (id : Z) (updates : PartialInsertReservation.t)
  : M (option Reservation.t) :=
  reservation <- gets (fun this => JsMap.get id (reservations this)) ;;
  match reservation with
  | None => ret None
  | Some reservation =>
      let updatedReservation :=
        PartialInsertReservation.spread reservation updates in
      reservations_set id updatedReservation ;;
      ret (Some updatedReservation)
  end.

(** [r.date === today && r.status === "active"]. *)
Definition today_active (today : string) (r : Reservation.t) : bool :=
  String.eqb (Reservation.date r) today
  && String.eqb (Reservation.status r) "active".

Definition deleteReservation (today : string) (id : Z) : M bool :=
  reservation <- gets (fun this => JsMap.get id (reservations this)) ;;
  match reservation with
  | None => ret false
  | Some reservation =>
      reservations_delete id ;;
      (* Check if table has any other active reservations today *)
      tableReservations <-
        getReservationsByTable (Reservation.tableId reservation) ;;
      let todayActiveReservations :=
        filter (today_active today) tableReservations in
      (* If no active reservations, set table to available *)
      (if (List.length todayActiveReservations =? 0)%nat
       then updateTableStatus (Reservation.tableId reservation) "available" ;;
            ret tt
       else ret tt) ;;
      ret true
  end.

Definition getTablesWithReservations (today : string) (date : option string)
  : M (list TableWithReservations.t) :=
  allTables <- getTables ;;
  let targetDate := or_default date today in
  for_of allTables []
    (fun table =>
       tableReservations <- getReservationsByTable (Table.id table) ;;
       let todayReservations :=
         filter (fun r => String.eqb (Reservation.date r) targetDate)
                tableReservations in
       let currentReservation :=
         find (fun r => String.eqb (Reservation.status r) "active")
              todayReservations in
       ret {| TableWithReservations.table := table;
              TableWithReservations.currentReservation := currentReservation;
              TableWithReservations.todayReservations := todayReservations |}).

(** ** The constructor *)

Definition defaultTables : list InsertTable.t :=
  let T number name capacity x y width height status shape hallId :=
    InsertTable.mk number (Some name) capacity x y width height
                   (Some status) (Some shape) (Some hallId) in
  [ (* Белый зал *)
    T 1 "Основной" 2 50 80 60 60 "available" "round" "white";
    T 2 "У окна" 2 150 80 60 60 "reserved" "round" "white";
    T 3 "Семейный" 4 250 80 80 60 "occupied" "rectangular" "white";
    T 4 "Большой" 6 50 200 100 60 "available" "rectangular" "white";
    (* Бар зал *)
    T 5 "Барная стойка" 2 50 80 60 60 "reserved" "round" "bar";
    T 6 "Высокий" 4 150 80 80 60 "available" "rectangular" "bar";
    T 7 "Коктейльный" 2 250 80 60 60 "occupied" "round" "bar";
    (* Сводчатый зал *)
    T 8 "Под аркой" 6 100 120 100 60 "available" "rectangular" "vaulted";
    T 9 "Центральный" 8 250 120 120 80 "reserved" "rectangular" "vaulted";
    T 10 "Уголок" 4 50 250 80 60 "available" "rectangular" "vaulted";
    (* Четвертый зал *)
    T 11 "Тихий" 2 80 100 60 60 "available" "round" "fourth";
    T 12 "Деловой" 4 180 100 80 60 "reserved" "rectangular" "fourth";
    (* Банкетный зал *)
    T 13 "Президиум" 10 100 150 140 100 "reserved" "rectangular" "banquet";
    T 14 "Главный" 12 300 150 160 100 "available" "rectangular" "banquet";
    T 15 "Праздничный" 8 50 300 120 80 "occupied" "rectangular" "banquet" ].

Definition sampleReservations (today : string) : list InsertReservation.t :=
  let R tableId customerName customerPhone guests time duration comment :=
    InsertReservation.mk tableId customerName customerPhone guests today time
                         (Some duration) (Some comment) (Some "active")
                         None None None in
  [ R 2 "Иван Смирнов" "+7 (999) 123-45-67" 4 "19:30" 120
      "Окно, пожалуйста. День рождения!";
    R 3 "Мария Козлова" "+7 (999) 765-43-21" 2 "12:15" 90 EmptyString;
    R 5 "Анна Сидорова" "+7 (999) 456-78-90" 4 "19:15" 120 EmptyString ].

(** The sample reservations are stored directly, not through
    [createReservation]: no table status is touched.  The clock readings of
    one construction are taken at one instant [now]. *)
Definition initializeDefaultTables (today : string) (now : Z) : M unit :=
  forEach defaultTables (fun table =>
    id <- post_incr_currentTableId ;;
    let newTable :=
      {| Table.id := id;
         Table.number := InsertTable.number table;
         Table.name := or_null (InsertTable.name table);
         Table.capacity := InsertTable.capacity table;
         Table.x := InsertTable.x table;
         Table.y := InsertTable.y table;
         Table.width := InsertTable.width table;
         Table.height := InsertTable.height table;
         Table.status := or_default (InsertTable.status table) "available";
         Table.shape := or_default (InsertTable.shape table) "round";
         Table.hallId := or_default (InsertTable.hallId table) "white" |} in
    tables_set (Table.id newTable) newTable) ;;
  (* Add some sample reservations for today *)
  forEach (sampleReservations today) (fun reservation =>
    id <- post_incr_currentReservationId ;;
    let newReservation :=
      {| Reservation.id := id;
         Reservation.tableId := InsertReservation.tableId reservation;
         Reservation.customerName := InsertReservation.customerName reservation;
         Reservation.customerPhone :=
           InsertReservation.customerPhone reservation;
         Reservation.guests := InsertReservation.guests reservation;
         Reservation.date := InsertReservation.date reservation;
         Reservation.time := InsertReservation.time reservation;
         Reservation.duration :=
           or_default (InsertReservation.duration reservation) 120;
         Reservation.comment := or_null (InsertReservation.comment reservation);
         Reservation.status :=
           or_default (InsertReservation.status reservation) "active";
         Reservation.hasTimeLimit := false;
         Reservation.startTime := None;
         Reservation.endTime := None;
         Reservation.createdAt := now |} in
    reservations_set (Reservation.id newReservation) newReservation).

Definition constructor (today : string) (now : Z) : MemStorage :=
  snd (initializeDefaultTables today now
         {| tables := JsMap.empty;
            reservations := JsMap.empty;
            currentTableId := 1;
            currentReservationId := 1 |}).

(** ** The reservation form

    [onSubmit] of [ReservationModal] builds the object it sends to
    [createReservation]: [{ ...data, hasTimeLimit, startTime: hasTimeLimit ?
    data.startTime : null, endTime: hasTimeLimit ? data.endTime : null }],
    where [hasTimeLimit] is the state of the toggle. *)
Definition reservationData (hasTimeLimit : bool) (data : InsertReservation.t)
  : InsertReservation.t :=
  {| InsertReservation.tableId := InsertReservation.tableId data;
     InsertReservation.customerName := InsertReservation.customerName data;
     InsertReservation.customerPhone := InsertReservation.customerPhone data;
     InsertReservation.guests := InsertReservation.guests data;
     InsertReservation.date := InsertReservation.date data;
     InsertReservation.time := InsertReservation.time data;
     InsertReservation.duration := InsertReservation.duration data;
     InsertReservation.comment := InsertReservation.comment data;
     InsertReservation.status := InsertReservation.status data;
     InsertReservation.hasTimeLimit := Some hasTimeLimit;
     InsertReservation.startTime :=
       if hasTimeLimit then InsertReservation.startTime data else None;
     InsertReservation.endTime :=
       if hasTimeLimit then InsertReservation.endTime data else None |}.

(** ** Runs of the store

    A state is reachable when a sequence of mutating calls leads to it from a
    freshly constructed store. *)
Inductive Call : Type :=
| CreateTable (table : InsertTable.t)
| UpdateTable (id : Z) (updates : PartialInsertTable.t)
| UpdateTableStatus (id : Z) (status : string)
| CreateReservation (now : Z) (reservation : InsertReservation.t)
| UpdateReservation (id : Z) (updates : PartialInsertReservation.t)
| DeleteReservation (today : string) (id : Z).

Definition exec (c : Call) (this : MemStorage) : MemStorage :=
  match c with
  | CreateTable table => snd (createTable table this)
  | UpdateTable id updates => snd (updateTable id updates this)
  | UpdateTableStatus id status => snd (updateTableStatus id status this)
  | CreateReservation now reservation =>
      snd (createReservation now reservation this)
  | UpdateReservation id updates => snd (updateReservation id updates this)
  | DeleteReservation today id => snd (deleteReservation today id this)
  end.

Inductive reachable : MemStorage -> Prop :=
| reachable_new today now : reachable (constructor today now)
| reachable_call c this : reachable this -> reachable (exec c this).

(** ** What the specification says a composite view is

    Written from the words of the specification (section 4.4), to be compared
    with [getTablesWithReservations]: for a table and a target date,
    [todayReservations] are the reservations of that table on that date, in
    store order, and [currentReservation] is the first of them that is
    active. *)
Definition view_spec (this : MemStorage) (targetDate : string)
  (table : Table.t) : TableWithReservations.t :=
  let todayReservations :=
    filter (fun r => (Reservation.tableId r =? Table.id table)
                     && String.eqb (Reservation.date r) targetDate)
           (JsMap.values (reservations this)) in
  {| TableWithReservations.table := table;
     TableWithReservations.currentReservation :=
       find (fun r => String.eqb (Reservation.status r) "active")
            todayReservations;
     TableWithReservations.todayReservations := todayReservations |}.

Definition views_spec (this : MemStorage) (targetDate : string)
  : list TableWithReservations.t :=
  map (view_spec this targetDate) (JsMap.values (tables this)).

(** ** Representation invariant

    Every entry is stored under its own id, ids are below the counter that
    assigns them, and no key occurs twice (as in a [Map]). *)
Definition keyed_below {V} (id_of : V -> Z) (next : Z) (m : JsMap.t V) : Prop :=
  Forall (fun kv => id_of (snd kv) = fst kv /\ fst kv < next) m
  /\ NoDup (JsMap.keys m).

Definition store_ok (this : MemStorage) : Prop :=
  keyed_below Table.id (currentTableId this) (tables this)
  /\ keyed_below Reservation.id (currentReservationId this) (reservations this).

(** A sequence of mutating calls, in order. *)
Definition run (cs : list Call) (this : MemStorage) : MemStorage :=
  fold_left (fun s c => exec c s) cs this.

(** ** The scenario of the specification

    One seeded table (id 1, [available]) and bookings of it that supply only
    the required fields. *)
Definition empty_store : MemStorage :=
  {| tables := JsMap.empty;
     reservations := JsMap.empty;
     currentTableId := 1;
     currentReservationId := 1 |}.

Definition seed_table : InsertTable.t :=
  {| InsertTable.number := 1;
     InsertTable.name := None;
     InsertTable.capacity := 2;
     InsertTable.x := 0;
     InsertTable.y := 0;
     InsertTable.width := 60;
     InsertTable.height := 60;
     InsertTable.status := Some "available";
     InsertTable.shape := None;
     InsertTable.hallId := None |}.

Definition seeded_store : MemStorage := snd (createTable seed_table empty_store).

Definition booking (tableId : Z) (date : string) : InsertReservation.t :=
  {| InsertReservation.tableId := tableId;
     InsertReservation.customerName := "A";
     InsertReservation.customerPhone := "1";
     InsertReservation.guests := 2;
     InsertReservation.date := date;
     InsertReservation.time := "19:00";
     InsertReservation.duration := None;
     InsertReservation.comment := None;
     InsertReservation.status := None;
     InsertReservation.hasTimeLimit := None;
     InsertReservation.startTime := None;
     InsertReservation.endTime := None |}.

(** A booking that carries a time window although its time limit is off. *)
Definition booking_with_window (tableId : Z) (date : string)
  : InsertReservation.t :=
  {| InsertReservation.tableId := tableId;
     InsertReservation.customerName := "A";
     InsertReservation.customerPhone := "1";
     InsertReservation.guests := 2;
     InsertReservation.date := date;
     InsertReservation.time := "19:00";
     InsertReservation.duration := None;
     InsertReservation.comment := None;
     InsertReservation.status := None;
     InsertReservation.hasTimeLimit := Some false;
     InsertReservation.startTime := Some "19:00";
     InsertReservation.endTime := Some "21:00" |}.

(** The seeded table booked once for 2024-01-01. *)
Definition booked_store : MemStorage :=
  snd (createReservation 0 (booking 1 "2024-01-01") seeded_store).

(** The seeded table booked twice for 2024-01-01. *)
Definition twice_booked_store : MemStorage :=
  snd (createReservation 0 (booking 1 "2024-01-01") booked_store).

(** ** Field merge, in the words of the specification

    Of a merged record the specification says: a supplied field is replaced
    by the supplied value, an unsupplied field is untouched. *)
Definition field_merged {A} (old new : A) (supplied : option A) : Prop :=
  (forall v, supplied = Some v -> new = v) /\ (supplied = None -> new = old).

(** ** The table choice of the reservation form

    [availableTables] of [ReservationModal] is
    [tables?.filter(table => table.status === "available") || []], where
    [tables] is the table list the form has loaded, [undefined] ([None])
    until it arrives.  An empty array is truthy, so [|| []] only stands in
    for the missing list. *)
Definition availableTables (tables : option (list Table.t)) : list Table.t :=
  match tables with
  | Some tables =>
      filter (fun table => String.eqb (Table.status table) "available") tables
  | None => []
  end.

(** The ids [1, 2, ..., n]. *)
Definition ids_upto (n : nat) : list Z := map Z.of_nat (seq 1 n).

(** ** Intermediate stores of the two-step methods *)

(** The store between the two writes of [createReservation]. *)
Definition reservation_stored (this : MemStorage) (id : Z) (r : Reservation.t)
  : MemStorage :=
  {| tables := tables this;
     reservations := JsMap.set id r (reservations this);
     currentTableId := currentTableId this;
     currentReservationId := currentReservationId this + 1 |}.

(** The store after the removal in [deleteReservation], before the table
    is looked at. *)
Definition reservation_removed (this : MemStorage) (id : Z) : MemStorage :=
  {| tables := tables this;
     reservations := JsMap.delete id (reservations this);
     currentTableId := currentTableId this;
     currentReservationId := currentReservationId this |}.

(** * Properties *)

(** ** Facts about insertion-ordered maps *)

Module JsMapFacts.
Import JsMap.
Section WithValues.
Variable V : Type.
Implicit Types (m : JsMap.t V) (k : Z) (v : V).
Lemma get_set_same k v m : get k (set k v m) = Some v.
Proof.
  induction m as [|[k' v'] m IH]; simpl.
  - now rewrite Z.eqb_refl.
  - destruct (k' =? k) eqn:E; simpl.
    + now rewrite Z.eqb_refl.
    + now rewrite E.
Qed.

Lemma get_set_other k k' v m : k' <> k -> get k' (set k v m) = get k' m.
Proof.
  intros Hne. induction m as [|[k0 v0] m IH]; simpl.
  - destruct (k =? k') eqn:E; [apply Z.eqb_eq in E; congruence | easy].
  - destruct (k0 =? k) eqn:E; simpl.
    + apply Z.eqb_eq in E. subst k0.
      destruct (k =? k') eqn:E'; [apply Z.eqb_eq in E'; congruence | easy].
    + now rewrite IH.
Qed.

Lemma get_delete_same k m : get k (delete k m) = None.
Proof.
  induction m as [|[k' v'] m IH]; simpl; [easy|].
  destruct (k' =? k) eqn:E; simpl; [easy | now rewrite E].
Qed.

Lemma get_delete_other k k' m : k' <> k -> get k' (delete k m) = get k' m.
Proof.
  intros Hne. induction m as [|[k0 v0] m IH]; simpl; [easy|].
  destruct (k0 =? k) eqn:E; simpl.
  - apply Z.eqb_eq in E. subst k0.
    destruct (k =? k') eqn:E'; [apply Z.eqb_eq in E'; congruence | easy].
  - now rewrite IH.
Qed.

Lemma get_In k v m : get k m = Some v -> In (k, v) m.
Proof.
  induction m as [|[k' v'] m IH]; simpl; [discriminate|].
  destruct (k' =? k) eqn:E.
  - apply Z.eqb_eq in E. intros [= ->]. left. now subst.
  - intros H. right. now apply IH.
Qed.

Lemma get_Some_key k v m : get k m = Some v -> In k (keys m).
Proof. intros H. apply get_In in H. now apply (in_map fst) in H. Qed.

Lemma get_None_key k m : get k m = None <-> ~ In k (keys m).
Proof.
  induction m as [|[k' v'] m IH]; simpl.
  - tauto.
  - destruct (k' =? k) eqn:E.
    + apply Z.eqb_eq in E. split; [discriminate | intros H; exfalso; auto].
    + apply Z.eqb_neq in E. rewrite IH. tauto.
Qed.

(** The keys after [set]: unchanged for a present key, one more at the end
    for a new one. *)
Lemma keys_set k v m :
  keys (set k v m) =
  match get k m with Some _ => keys m | None => keys m ++ [k] end.
Proof.
  induction m as [|[k' v'] m IH]; simpl; [easy|].
  destruct (k' =? k) eqn:E; simpl.
  - apply Z.eqb_eq in E. now subst.
  - rewrite IH. now destruct (get k m).
Qed.

Lemma In_keys_set k v m k' : In k' (keys (set k v m)) <-> k' = k \/ In k' (keys m).
Proof.
  rewrite keys_set. destruct (get k m) eqn:E.
  - split; [tauto|]. intros [->|H]; [now apply get_Some_key in E | easy].
  - rewrite in_app_iff. simpl. intuition.
Qed.

Lemma keys_delete k m : keys (delete k m) = filter (fun k' => negb (k' =? k)) (keys m).
Proof.
  induction m as [|[k0 v0] m IH]; simpl; [easy|].
  destruct (k0 =? k); simpl; now rewrite IH.
Qed.

Lemma NoDup_keys_set k v m : NoDup (keys m) -> NoDup (keys (set k v m)).
Proof.
  intros H. rewrite keys_set. destruct (get k m) eqn:E; [easy|].
  apply get_None_key in E.
  apply NoDup_app; [easy | repeat constructor; easy |].
  intros a Ha [<-|[]]. easy.
Qed.

Lemma NoDup_keys_delete k m : NoDup (keys m) -> NoDup (keys (delete k m)).
Proof. intros H. rewrite keys_delete. now apply NoDup_filter. Qed.

Lemma Forall_set (P : Z * V -> Prop) k v m :
  P (k, v) -> Forall P m -> Forall P (set k v m).
Proof.
  intros Hk. induction 1 as [|[k0 v0] m H0 Hm IH]; simpl.
  - now repeat constructor.
  - destruct (k0 =? k); constructor; easy.
Qed.

Lemma Forall_delete (P : Z * V -> Prop) k m :
  Forall P m -> Forall P (delete k m).
Proof.
  induction 1 as [|[k0 v0] m H0 Hm IH]; simpl; [constructor|].
  destruct (k0 =? k); [easy | now constructor].
Qed.

(** An entry of a map without repeated keys is what [get] finds. *)
Lemma In_get k v m : NoDup (keys m) -> In (k, v) m -> get k m = Some v.
Proof.
  induction m as [|[k0 v0] m IH]; simpl; [easy|].
  intros Hnd [H|H].
  - injection H as -> ->. now rewrite Z.eqb_refl.
  - inversion Hnd as [|? ? Hnotin Hnd']; subst.
    destruct (k0 =? k) eqn:E; [|now apply IH].
    apply Z.eqb_eq in E. subst k0. exfalso. apply Hnotin.
    now apply (in_map fst) in H.
Qed.

(** A value stored under a fresh key comes last in the iteration. *)
Lemma values_set_fresh k v m :
  get k m = None -> values (set k v m) = values m ++ [v].
Proof.
  induction m as [|[k' v'] m IH]; simpl; [easy|].
  destruct (k' =? k); [discriminate|]. intros H. simpl. now rewrite IH.
Qed.

Lemma delete_absent k m : get k m = None -> delete k m = m.
Proof.
  induction m as [|[k' v'] m IH]; simpl; [easy|].
  destruct (k' =? k); [discriminate|]. intros H. now rewrite IH.
Qed.


(** Removing twice is removing once. *)
Lemma delete_delete k m : delete k (delete k m) = delete k m.
Proof. apply delete_absent, get_delete_same. Qed.

End WithValues.
End JsMapFacts.

(** ** The methods as state transformers *)

Section Runs.
Implicit Types this : MemStorage.

Lemma updateTable_run this id updates :
  updateTable id updates this =
  match JsMap.get id (tables this) with
  | None => (None, this)
  | Some table =>
      let updatedTable := PartialInsertTable.spread table updates in
      (Some updatedTable,
       {| tables := JsMap.set id updatedTable (tables this);
          reservations := reservations this;
          currentTableId := currentTableId this;
          currentReservationId := currentReservationId this |})
  end.
Proof.
  unfold updateTable, bind, gets.
  destruct (JsMap.get id (tables this)); reflexivity.
Qed.

(** Updating a table never touches the reservations or the counters. *)
Lemma updateTable_frame this id updates :
  let this' := snd (updateTable id updates this) in
  reservations this' = reservations this
  /\ currentTableId this' = currentTableId this
  /\ currentReservationId this' = currentReservationId this.
Proof.
  rewrite updateTable_run.
  destruct (JsMap.get id (tables this)); simpl; auto.
Qed.

(** Updating a table that does not exist changes nothing. *)
Lemma updateTable_missing this id updates :
  JsMap.get id (tables this) = None ->
  updateTable id updates this = (None, this).
Proof. intros H. now rewrite updateTable_run, H. Qed.

Lemma updateTableStatus_get this id status table :
  JsMap.get id (tables this) = Some table ->
  JsMap.get id (tables (snd (updateTableStatus id status this)))
  = Some (PartialInsertTable.spread table (PartialInsertTable.of_status status)).
Proof.
  intros H. unfold updateTableStatus. rewrite updateTable_run, H. simpl.
  apply JsMapFacts.get_set_same.
Qed.

Lemma updateReservation_run this id updates :
  updateReservation id updates this =
  match JsMap.get id (reservations this) with
  | None => (None, this)
  | Some reservation =>
      let updatedReservation :=
        PartialInsertReservation.spread reservation updates in
      (Some updatedReservation,
       {| tables := tables this;
          reservations := JsMap.set id updatedReservation (reservations this);
          currentTableId := currentTableId this;
          currentReservationId := currentReservationId this |})
  end.
Proof.
  unfold updateReservation, bind, gets.
  destruct (JsMap.get id (reservations this)); reflexivity.
Qed.

(** The record that [createReservation] builds and returns. *)
Lemma createReservation_fst this now reservation :
  fst (createReservation now reservation this) =
  {| Reservation.id := currentReservationId this;
     Reservation.tableId := InsertReservation.tableId reservation;
     Reservation.customerName := InsertReservation.customerName reservation;
     Reservation.customerPhone := InsertReservation.customerPhone reservation;
     Reservation.guests := InsertReservation.guests reservation;
     Reservation.date := InsertReservation.date reservation;
     Reservation.time := InsertReservation.time reservation;
     Reservation.duration :=
       or_default (InsertReservation.duration reservation) 120;
     Reservation.comment := or_null (InsertReservation.comment reservation);
     Reservation.status :=
       or_default (InsertReservation.status reservation) "active";
     Reservation.hasTimeLimit :=
       or_default (InsertReservation.hasTimeLimit reservation) false;
     Reservation.startTime := or_null (InsertReservation.startTime reservation);
     Reservation.endTime := or_null (InsertReservation.endTime reservation);
     Reservation.createdAt := now |}.
Proof.
  unfold createReservation, bind, post_incr_currentReservationId,
    reservations_set, modify, ret, updateTableStatus.
  rewrite updateTable_run. simpl.
  destruct (JsMap.get _ (tables this)); reflexivity.
Qed.

Lemma createReservation_run this now reservation :
  let newReservation := fst (createReservation now reservation this) in
  createReservation now reservation this =
  (newReservation,
   snd (updateTableStatus (InsertReservation.tableId reservation) "reserved"
          (reservation_stored this (currentReservationId this) newReservation))).
Proof.
  unfold createReservation, bind, post_incr_currentReservationId,
    reservations_set, modify, ret, reservation_stored. simpl.
  unfold updateTableStatus. rewrite !updateTable_run. simpl.
  destruct (JsMap.get _ (tables this)); reflexivity.
Qed.

Lemma deleteReservation_run this today id :
  deleteReservation today id this =
  match JsMap.get id (reservations this) with
  | None => (false, this)
  | Some reservation =>
      let tableId := Reservation.tableId reservation in
      let remaining :=
        filter (today_active today)
               (fst (getReservationsByTable tableId (reservation_removed this id))) in
      (true,
       match remaining with
       | [] => snd (updateTableStatus tableId "available" (reservation_removed this id))
       | _ :: _ => reservation_removed this id
       end)
  end.
Proof.
  unfold deleteReservation, bind, gets.
  destruct (JsMap.get id (reservations this)) as [r|]; [|reflexivity].
  unfold reservations_delete, modify, getReservationsByTable, gets, ret. simpl.
  fold (reservation_removed this id).
  destruct (filter (today_active today) _) as [|r0 l]; simpl; [|reflexivity].
  now destruct (updateTableStatus _ _ _).
Qed.

End Runs.

(** ** The representation invariant holds in every reachable state *)

Section Invariant.
Context {V : Type} (id_of : V -> Z).
Implicit Types (m : JsMap.t V) (k next : Z) (v : V).

Lemma keyed_below_get next m k v :
  keyed_below id_of next m -> JsMap.get k m = Some v -> id_of v = k /\ k < next.
Proof.
  intros [Hall _] Hget. apply JsMapFacts.get_In in Hget.
  rewrite Forall_forall in Hall. exact (Hall _ Hget).
Qed.

Lemma keyed_below_set next next' m k v :
  keyed_below id_of next m -> next <= next' -> id_of v = k -> k < next' ->
  keyed_below id_of next' (JsMap.set k v m).
Proof.
  intros [Hall Hnd] Hle Hid Hlt. split.
  - apply JsMapFacts.Forall_set; [simpl; auto|].
    eapply Forall_impl; [|exact Hall]. simpl. intros [k0 v0]. simpl. lia.
  - now apply JsMapFacts.NoDup_keys_set.
Qed.

Lemma keyed_below_delete next m k :
  keyed_below id_of next m -> keyed_below id_of next (JsMap.delete k m).
Proof.
  intros [Hall Hnd]. split.
  - now apply JsMapFacts.Forall_delete.
  - now apply JsMapFacts.NoDup_keys_delete.
Qed.

(** A stored value is found again under its own id. *)
Lemma keyed_below_In_values next m v :
  keyed_below id_of next m -> In v (JsMap.values m) ->
  JsMap.get (id_of v) m = Some v.
Proof.
  intros [Hall Hnd] Hin. apply in_map_iff in Hin as [[k v'] [Hv Hin]].
  simpl in Hv. subst v'. rewrite Forall_forall in Hall.
  destruct (Hall _ Hin) as [Hid _]. simpl in Hid. rewrite Hid.
  now apply JsMapFacts.In_get.
Qed.

End Invariant.

Lemma store_ok_updateTable this id updates :
  store_ok this -> store_ok (snd (updateTable id updates this)).
Proof.
  intros [Ht Hr]. rewrite updateTable_run.
  destruct (JsMap.get id (tables this)) as [table|] eqn:E; [|now split].
  split; simpl; [|exact Hr].
  destruct (keyed_below_get _ Ht E) as [Hid Hlt].
  apply keyed_below_set with (next := currentTableId this);
    [exact Ht | lia | exact Hid | exact Hlt].
Qed.

Lemma store_ok_createTable this table :
  store_ok this -> store_ok (snd (createTable table this)).
Proof.
  intros [Ht Hr]. split; simpl; [|exact Hr].
  apply keyed_below_set with (next := currentTableId this);
    [exact Ht | lia | reflexivity | lia].
Qed.

Lemma store_ok_createReservation this now reservation :
  store_ok this -> store_ok (snd (createReservation now reservation this)).
Proof.
  intros [Ht Hr]. rewrite createReservation_run. simpl.
  apply store_ok_updateTable. split; simpl; [exact Ht|].
  rewrite createReservation_fst.
  apply keyed_below_set with (next := currentReservationId this);
    [exact Hr | lia | reflexivity | lia].
Qed.

Lemma store_ok_updateReservation this id updates :
  store_ok this -> store_ok (snd (updateReservation id updates this)).
Proof.
  intros [Ht Hr]. rewrite updateReservation_run.
  destruct (JsMap.get id (reservations this)) as [r|] eqn:E; [|now split].
  split; simpl; [exact Ht|].
  destruct (keyed_below_get _ Hr E) as [Hid Hlt].
  apply keyed_below_set with (next := currentReservationId this);
    [exact Hr | lia | exact Hid | exact Hlt].
Qed.

Lemma store_ok_deleteReservation this today id :
  store_ok this -> store_ok (snd (deleteReservation today id this)).
Proof.
  intros [Ht Hr]. rewrite deleteReservation_run.
  destruct (JsMap.get id (reservations this)) as [r|] eqn:E; [|now split].
  assert (Hok : store_ok (reservation_removed this id)).
  { split; simpl; [exact Ht | now apply keyed_below_delete]. }
  simpl. destruct (filter _ _); [|exact Hok].
  now apply store_ok_updateTable.
Qed.

Lemma store_ok_constructor today now : store_ok (constructor today now).
Proof.
  split; split; cbv -[Z.lt].
  - repeat constructor.
  - repeat constructor; simpl; intuition discriminate.
  - repeat constructor.
  - repeat constructor; simpl; intuition discriminate.
Qed.

Lemma reachable_store_ok this : reachable this -> store_ok this.
Proof.
  induction 1 as [today now | c this Hreach IH].
  - apply store_ok_constructor.
  - destruct c; simpl.
    + now apply store_ok_createTable.
    + now apply store_ok_updateTable.
    + now apply store_ok_updateTable.
    + now apply store_ok_createReservation.
    + now apply store_ok_updateReservation.
    + now apply store_ok_deleteReservation.
Qed.

(** Tables are never removed: an id that was assigned stays in the store. *)
Lemma table_ids_persist c this k :
  In k (JsMap.keys (tables this)) -> In k (JsMap.keys (tables (exec c this))).
Proof.
  assert (Hupd : forall s id updates,
    In k (JsMap.keys (tables s)) ->
    In k (JsMap.keys (tables (snd (updateTable id updates s))))).
  { intros s id updates H. rewrite updateTable_run.
    destruct (JsMap.get id (tables s)); simpl; [|easy].
    apply JsMapFacts.In_keys_set. now right. }
  intros H. destruct c; simpl.
  - apply JsMapFacts.In_keys_set. now right.
  - now apply Hupd.
  - now apply Hupd.
  - rewrite createReservation_run. simpl. now apply Hupd.
  - rewrite updateReservation_run.
    now destruct (JsMap.get id (reservations this)).
  - rewrite deleteReservation_run.
    destruct (JsMap.get id (reservations this)); [|easy].
    simpl. destruct (filter _ _); [|easy]. now apply Hupd.
Qed.

(** ** The id counters only grow *)

Lemma currentTableId_exec c this :
  currentTableId this <= currentTableId (exec c this).
Proof.
  assert (Hupd : forall s id updates,
    currentTableId (snd (updateTable id updates s)) = currentTableId s).
  { intros s id updates. apply updateTable_frame. }
  destruct c; simpl.
  - lia.
  - rewrite Hupd. lia.
  - unfold updateTableStatus. rewrite Hupd. lia.
  - rewrite createReservation_run. simpl.
    unfold updateTableStatus. rewrite Hupd. simpl. lia.
  - rewrite updateReservation_run.
    destruct (JsMap.get id (reservations this)); simpl; lia.
  - rewrite deleteReservation_run.
    destruct (JsMap.get id (reservations this)); simpl; [|lia].
    destruct (filter _ _); simpl; [|lia].
    unfold updateTableStatus. rewrite Hupd. simpl. lia.
Qed.

Lemma currentTableId_run cs this :
  currentTableId this <= currentTableId (run cs this).
Proof.
  revert this. induction cs as [|c cs IH]; intros this; simpl; [lia|].
  specialize (IH (exec c this)). pose proof (currentTableId_exec c this).
  lia.
Qed.

(** ** Creating a reservation *)

(** C1.  For a table [T] of the store and a reservation input [R] with
    [R.tableId = T.id], right after [createReservation(R)] the lookup
    [getTable(T.id)] finds a table whose status is ["reserved"], whatever the
    date of [R] is; the table found is [T] with only its status replaced.
    The store is any store that satisfies the representation invariant, as
    every reachable one does ([reachable_store_ok]). *)
Theorem createReservation_marks_table_reserved :
  forall (this : MemStorage) (now : Z) (R : InsertReservation.t) (T : Table.t),
    store_ok this ->
    In T (fst (getTables this)) ->
    InsertReservation.tableId R = Table.id T ->
    let this' := snd (createReservation now R this) in
    exists T',
      fst (getTable (Table.id T) this') = Some T'
      /\ Table.status T' = "reserved"
      /\ T' = PartialInsertTable.spread T (PartialInsertTable.of_status "reserved").
Proof.
  intros this now R T Hok Hin Hid this'.
  destruct Hok as [Ht _].
  pose proof (keyed_below_In_values _ Ht Hin) as Hget.
  eexists. split; [|split; [|reflexivity]]; [|reflexivity].
  subst this'. rewrite createReservation_run. simpl. rewrite Hid.
  now apply updateTableStatus_get.
Qed.

Lemma createReservation_marks_table_reserved_witness :
  exists T',
    fst (getTable 1 (snd (createReservation 0 (booking 1 "2031-12-31")
                            (constructor "2024-06-01" 0)))) = Some T'
    /\ Table.status T' = "reserved"
    /\ T' = PartialInsertTable.spread
              (Table.mk 1 1 (Some "Основной") 2 50 80 60 60
                        "available" "round" "white")
              (PartialInsertTable.of_status "reserved").
Proof.
  apply (@createReservation_marks_table_reserved
           (constructor "2024-06-01" 0) 0 (booking 1 "2031-12-31")
           (Table.mk 1 1 (Some "Основной") 2 50 80 60 60
                     "available" "round" "white")).
  - apply store_ok_constructor.
  - vm_compute. left. reflexivity.
  - reflexivity.
Defined.

(** C10.  When the table id of the input matches no table,
    [createReservation] still stores and returns the new reservation, with
    its id taken from the counter and the defaults applied, and the tables
    are left as they were. *)
Theorem createReservation_unknown_table :
  forall (this : MemStorage) (now : Z) (R : InsertReservation.t),
    fst (getTable (InsertReservation.tableId R) this) = None ->
    let res := fst (createReservation now R this) in
    let this' := snd (createReservation now R this) in
    tables this' = tables this
    /\ currentTableId this' = currentTableId this
    /\ Reservation.id res = currentReservationId this
    /\ currentReservationId this' = currentReservationId this + 1
    /\ reservations this' = JsMap.set (Reservation.id res) res (reservations this)
    /\ fst (getReservation (Reservation.id res) this') = Some res
    /\ (Reservation.tableId res = InsertReservation.tableId R
        /\ Reservation.customerName res = InsertReservation.customerName R
        /\ Reservation.customerPhone res = InsertReservation.customerPhone R
        /\ Reservation.guests res = InsertReservation.guests R
        /\ Reservation.date res = InsertReservation.date R
        /\ Reservation.time res = InsertReservation.time R
        /\ Reservation.createdAt res = now)
    /\ (InsertReservation.duration R = None -> Reservation.duration res = 120)
    /\ (InsertReservation.comment R = None -> Reservation.comment res = None)
    /\ (InsertReservation.status R = None -> Reservation.status res = "active")
    /\ (InsertReservation.hasTimeLimit R = None ->
        Reservation.hasTimeLimit res = false)
    /\ (InsertReservation.startTime R = None -> Reservation.startTime res = None)
    /\ (InsertReservation.endTime R = None -> Reservation.endTime res = None).
Proof.
  intros this now R Hnone res this'. simpl in Hnone.
  assert (Hthis' : this' = reservation_stored this (currentReservationId this) res).
  { subst this' res. rewrite createReservation_run. simpl.
    unfold updateTableStatus. now rewrite updateTable_missing. }
  assert (Hres := createReservation_fst this now R). fold res in Hres.
  rewrite Hthis'. rewrite Hres. simpl.
  repeat split; try reflexivity.
  - apply JsMapFacts.get_set_same.
  - now intros ->.
  - now intros ->.
  - now intros ->.
  - now intros ->.
  - now intros ->.
  - now intros ->.
Qed.

Lemma createReservation_unknown_table_witness :
  let res := fst (createReservation 7 (booking 99 "2024-01-01") seeded_store) in
  let this' := snd (createReservation 7 (booking 99 "2024-01-01") seeded_store) in
  tables this' = tables seeded_store
  /\ Reservation.id res = 1
  /\ fst (getReservation 1 this') = Some res
  /\ Reservation.duration res = 120
  /\ Reservation.status res = "active".
Proof.
  destruct (@createReservation_unknown_table seeded_store 7
              (booking 99 "2024-01-01") eq_refl)
    as (Ht & _ & Hid & _ & _ & Hget & _ & Hdur & _ & Hst & _).
  split; [exact Ht|]. split; [exact Hid|]. split; [exact Hget|].
  split; [exact (Hdur eq_refl) | exact (Hst eq_refl)].
Defined.

(** ** Creating a table *)

(** C8.  [createTable] returns a table whose id is greater than the id of
    every table assigned before (every table of the store, none of which is
    ever removed) and smaller than the id returned by any later
    [createTable]; optional fields that are unset get the defaults: no name,
    status ["available"], shape ["round"], hall ["white"].  The store is any
    store that satisfies the representation invariant, as every reachable
    one does ([reachable_store_ok]). *)
Theorem createTable_fresh_id_and_defaults :
  forall (this : MemStorage) (fields : InsertTable.t),
    store_ok this ->
    let T := fst (createTable fields this) in
    let this' := snd (createTable fields this) in
    (forall T0, In T0 (fst (getTables this)) -> Table.id T0 < Table.id T)
    /\ (forall k, In k (JsMap.keys (tables this)) -> k < Table.id T)
    /\ (forall cs fields',
          Table.id T < Table.id (fst (createTable fields' (run cs this'))))
    /\ fst (getTable (Table.id T) this') = Some T
    /\ (InsertTable.name fields = None -> Table.name T = None)
    /\ (InsertTable.status fields = None -> Table.status T = "available")
    /\ (InsertTable.shape fields = None -> Table.shape T = "round")
    /\ (InsertTable.hallId fields = None -> Table.hallId T = "white").
Proof.
  intros this fields Hok T this'.
  destruct Hok as [Ht _].
  assert (Hkeys : forall k, In k (JsMap.keys (tables this)) ->
                            k < currentTableId this).
  { intros k Hk. apply in_map_iff in Hk as [[k' v] [Hfst Hin]].
    simpl in Hfst. subst k'. destruct Ht as [Hall _].
    rewrite Forall_forall in Hall. now destruct (Hall _ Hin). }
  split; [|split; [|split; [|split]]].
  - intros T0 HT0. simpl.
    pose proof (keyed_below_In_values _ Ht HT0) as Hget.
    apply Hkeys. now apply JsMapFacts.get_Some_key in Hget.
  - exact Hkeys.
  - intros cs fields'. simpl.
    pose proof (currentTableId_run cs this') as Hmono. simpl in Hmono. lia.
  - simpl. apply JsMapFacts.get_set_same.
  - simpl. repeat split; now intros ->.
Qed.

Lemma createTable_fresh_id_and_defaults_witness :
  let T := fst (createTable seed_table (constructor "2024-06-01" 0)) in
  Table.id T = 16
  /\ (forall T0, In T0 (fst (getTables (constructor "2024-06-01" 0))) ->
                 Table.id T0 < Table.id T)
  /\ Table.name T = None /\ Table.shape T = "round" /\ Table.hallId T = "white".
Proof.
  destruct (@createTable_fresh_id_and_defaults (constructor "2024-06-01" 0)
              seed_table (store_ok_constructor "2024-06-01" 0))
    as (Hlt & _ & _ & _ & Hname & _ & Hshape & Hhall).
  split; [reflexivity|]. split; [exact Hlt|].
  split; [exact (Hname eq_refl)|]. split; [exact (Hshape eq_refl)|].
  exact (Hhall eq_refl).
Defined.

(** ** Deleting a reservation *)

(** C5.  For an id that identifies no reservation, [deleteReservation]
    returns [false] and the store is exactly as before. *)
Theorem deleteReservation_missing :
  forall (this : MemStorage) (today : string) (id : Z),
    fst (getReservation id this) = None ->
    deleteReservation today id this = (false, this).
Proof.
  intros this today id Hnone. simpl in Hnone.
  now rewrite deleteReservation_run, Hnone.
Qed.

Lemma deleteReservation_missing_witness :
  deleteReservation "2024-01-01" 5 booked_store = (false, booked_store).
Proof.
  apply (@deleteReservation_missing booked_store "2024-01-01" 5).
  reflexivity.
Defined.

(** ** The composite view *)

(** A loop whose body only reads leaves the store as it was and pushes one
    result per element, in order. *)
Lemma for_of_reads {A B} (f : MemStorage -> A -> B) (body : A -> M B) :
  (forall x this, body x this = (f this x, this)) ->
  forall xs acc this,
    for_of xs acc body this = (acc ++ map (f this) xs, this).
Proof.
  intros Hbody. induction xs as [|x xs IH]; intros acc this; simpl.
  - unfold ret. now rewrite app_nil_r.
  - unfold bind. rewrite Hbody, IH. now rewrite <- app_assoc.
Qed.

(** Filtering by table and then by date is filtering by both. *)
Lemma filter_filter {A} (p q : A -> bool) (l : list A) :
  filter q (filter p l) = filter (fun a => p a && q a) l.
Proof.
  induction l as [|a l IH]; simpl; [easy|].
  destruct (p a); simpl; [|easy]. destruct (q a); now rewrite IH.
Qed.

Lemma getTablesWithReservations_run this today date :
  getTablesWithReservations today date this
  = (views_spec this (or_default date today), this).
Proof.
  unfold getTablesWithReservations, bind, getTables, gets.
  rewrite for_of_reads with (f := fun s => view_spec s (or_default date today)).
  - reflexivity.
  - intros table s. unfold getReservationsByTable, gets, ret, view_spec.
    now rewrite filter_filter.
Qed.

(** C9.  [getTablesWithReservations] is a read: whatever the date argument,
    the store after the call is the store before it. *)
Theorem getTablesWithReservations_pure :
  forall (this : MemStorage) (today : string) (date : option string),
    snd (getTablesWithReservations today date this) = this.
Proof. intros. now rewrite getTablesWithReservations_run. Qed.

(** [find] returns the first match: everything before it fails the test. *)
Lemma find_first {A} (p : A -> bool) (l : list A) :
  match find p l with
  | Some a =>
      exists before after,
        l = before ++ a :: after /\ p a = true
        /\ Forall (fun b => p b = false) before
  | None => Forall (fun b => p b = false) l
  end.
Proof.
  induction l as [|x l IH]; simpl; [constructor|].
  destruct (p x) eqn:E.
  - exists [], l. repeat split; [exact E | constructor].
  - destruct (find p l) as [a|].
    + destruct IH as (before & after & -> & Hp & Hbefore).
      exists (x :: before), after. repeat split; [exact Hp | now constructor].
    + now constructor.
Qed.

(** C6, amended.  For a supplied date [d] that is not the empty string,
    [getTablesWithReservations(d)] returns one view per table, in the order
    of [getTables]; the [todayReservations] of a view are exactly the
    reservations of that table dated [d], in store order; its
    [currentReservation] is the first of them whose status is ["active"],
    absent when there is none.  With the date omitted, or given as the empty
    string, the target date is today's. *)
Theorem getTablesWithReservations_views :
  forall (this : MemStorage) (today d : string),
    d <> EmptyString ->
    let views := fst (getTablesWithReservations today (Some d) this) in
    views = views_spec this d
    /\ map TableWithReservations.table views = fst (getTables this)
    /\ (forall v, In v views ->
          (forall r,
             In r (TableWithReservations.todayReservations v) <->
             In r (fst (getReservations this))
             /\ Reservation.tableId r = Table.id (TableWithReservations.table v)
             /\ Reservation.date r = d)
          /\ match TableWithReservations.currentReservation v with
             | Some r =>
                 exists before after,
                   TableWithReservations.todayReservations v
                   = before ++ r :: after
                   /\ Reservation.status r = "active"
                   /\ Forall (fun b => Reservation.status b <> "active") before
             | None =>
                 Forall (fun b => Reservation.status b <> "active")
                        (TableWithReservations.todayReservations v)
             end)
    /\ fst (getTablesWithReservations today None this) = views_spec this today
    /\ fst (getTablesWithReservations today (Some EmptyString) this)
       = views_spec this today.
Proof.
  intros this today d Hd views. subst views.
  assert (Hor : or_default (Some d) today = d).
  { unfold or_default, falsy, Falsy_string.
    destruct (String.eqb_spec d EmptyString); [contradiction | reflexivity]. }
  rewrite !getTablesWithReservations_run. rewrite Hor. simpl.
  split; [reflexivity|]. split; [|split; [|split; reflexivity]].
  - unfold views_spec. rewrite map_map. simpl. apply map_id.
  - intros v Hv. unfold views_spec in Hv.
    apply in_map_iff in Hv as [table [<- _]]. simpl. split.
    + intros r. rewrite filter_In, andb_true_iff, Z.eqb_eq, String.eqb_eq.
      tauto.
    + match goal with |- match find ?p ?l with _ => _ end =>
        pose proof (find_first p l) as Hfind; destruct (find p l) as [r|]
      end.
      * destruct Hfind as (before & after & Heq & Hact & Hbefore).
        exists before, after. split; [exact Heq|].
        split; [now apply String.eqb_eq|].
        eapply Forall_impl; [|exact Hbefore]. simpl.
        intros b Hb. now apply String.eqb_neq.
      * eapply Forall_impl; [|exact Hfind]. simpl.
        intros b Hb. now apply String.eqb_neq.
Qed.

Lemma getTablesWithReservations_views_witness :
  fst (getTablesWithReservations "2024-06-01" (Some "2024-01-01") booked_store)
  = views_spec booked_store "2024-01-01"
  /\ map TableWithReservations.table
       (fst (getTablesWithReservations "2024-06-01" (Some "2024-01-01")
               booked_store))
     = fst (getTables booked_store).
Proof.
  destruct (@getTablesWithReservations_views booked_store "2024-06-01"
              "2024-01-01") as (Hviews & Htables & _).
  - discriminate.
  - split; [exact Hviews | exact Htables].
Defined.

(** C6, as stated, fails for the empty string: asked for the empty date,
    the view of table 1 lists a reservation dated 2024-01-01 (today), which
    is not a reservation whose date equals the supplied one. *)
Lemma getTablesWithReservations_empty_date_counterexample :
  let views :=
    fst (getTablesWithReservations "2024-01-01" (Some EmptyString) booked_store)
  in
  views <> views_spec booked_store EmptyString
  /\ exists v r,
       In v views
       /\ In r (TableWithReservations.todayReservations v)
       /\ Reservation.date r = "2024-01-01"
       /\ Reservation.date r <> EmptyString.
Proof.
  split.
  - vm_compute. discriminate.
  - vm_compute. eexists. eexists.
    split; [left; reflexivity|]. split; [left; reflexivity|].
    split; [reflexivity | discriminate].
Qed.

(** ** Updating a reservation *)

(** C7.  [updateReservation(id, updates)] on an existing id returns the old
    record with exactly the supplied fields replaced; [id] and [createdAt]
    and every unsupplied field are unchanged; the record is what
    [getReservation(id)] then finds; no table, no other reservation and no
    counter is touched.  With [{comment: "x"}] the result is the old record
    except for its comment. *)
Theorem updateReservation_merges_fields :
  forall (this : MemStorage) (id : Z) (updates : PartialInsertReservation.t)
         (R : Reservation.t),
    fst (getReservation id this) = Some R ->
    let this' := snd (updateReservation id updates this) in
    exists R',
      fst (updateReservation id updates this) = Some R'
      /\ fst (getReservation id this') = Some R'
      /\ Reservation.id R' = Reservation.id R
      /\ Reservation.createdAt R' = Reservation.createdAt R
      /\ field_merged (Reservation.tableId R) (Reservation.tableId R')
                      (PartialInsertReservation.tableId updates)
      /\ field_merged (Reservation.customerName R) (Reservation.customerName R')
                      (PartialInsertReservation.customerName updates)
      /\ field_merged (Reservation.customerPhone R)
                      (Reservation.customerPhone R')
                      (PartialInsertReservation.customerPhone updates)
      /\ field_merged (Reservation.guests R) (Reservation.guests R')
                      (PartialInsertReservation.guests updates)
      /\ field_merged (Reservation.date R) (Reservation.date R')
                      (PartialInsertReservation.date updates)
      /\ field_merged (Reservation.time R) (Reservation.time R')
                      (PartialInsertReservation.time updates)
      /\ field_merged (Reservation.duration R) (Reservation.duration R')
                      (PartialInsertReservation.duration updates)
      /\ field_merged (Reservation.comment R) (Reservation.comment R')
                      (PartialInsertReservation.comment updates)
      /\ field_merged (Reservation.status R) (Reservation.status R')
                      (PartialInsertReservation.status updates)
      /\ field_merged (Reservation.hasTimeLimit R) (Reservation.hasTimeLimit R')
                      (PartialInsertReservation.hasTimeLimit updates)
      /\ field_merged (Reservation.startTime R) (Reservation.startTime R')
                      (PartialInsertReservation.startTime updates)
      /\ field_merged (Reservation.endTime R) (Reservation.endTime R')
                      (PartialInsertReservation.endTime updates)
      /\ tables this' = tables this
      /\ currentTableId this' = currentTableId this
      /\ currentReservationId this' = currentReservationId this
      /\ (forall id', id' <> id ->
            fst (getReservation id' this') = fst (getReservation id' this))
      /\ (forall x,
            updates = PartialInsertReservation.of_comment (Some x) ->
            R' = {| Reservation.id := Reservation.id R;
                    Reservation.tableId := Reservation.tableId R;
                    Reservation.customerName := Reservation.customerName R;
                    Reservation.customerPhone := Reservation.customerPhone R;
                    Reservation.guests := Reservation.guests R;
                    Reservation.date := Reservation.date R;
                    Reservation.time := Reservation.time R;
                    Reservation.duration := Reservation.duration R;
                    Reservation.comment := Some x;
                    Reservation.status := Reservation.status R;
                    Reservation.hasTimeLimit := Reservation.hasTimeLimit R;
                    Reservation.startTime := Reservation.startTime R;
                    Reservation.endTime := Reservation.endTime R;
                    Reservation.createdAt := Reservation.createdAt R |}).
Proof.
  intros this id updates R Hget this'. simpl in Hget. subst this'.
  rewrite updateReservation_run, Hget. simpl.
  assert (Hmerged : forall A (old : A) u, field_merged old (spread_key old u) u).
  { intros A old [v|]; split; simpl; congruence. }
  eexists. split; [reflexivity|].
  split; [apply JsMapFacts.get_set_same|].
  repeat (split; [first [reflexivity | apply Hmerged]|]).
  split.
  - intros id' Hne. now apply JsMapFacts.get_set_other.
  - intros x ->. reflexivity.
Qed.

Lemma updateReservation_merges_fields_witness :
  exists R',
    fst (updateReservation 1
           (PartialInsertReservation.of_comment (Some "x")) booked_store)
    = Some R'
    /\ fst (getReservation 1
              (snd (updateReservation 1
                      (PartialInsertReservation.of_comment (Some "x"))
                      booked_store)))
       = Some R'
    /\ Reservation.comment R' = Some "x"
    /\ Reservation.date R' = "2024-01-01"
    /\ tables (snd (updateReservation 1
                      (PartialInsertReservation.of_comment (Some "x"))
                      booked_store))
       = tables booked_store.
Proof.
  destruct (@updateReservation_merges_fields booked_store 1
              (PartialInsertReservation.of_comment (Some "x"))
              (fst (createReservation 0 (booking 1 "2024-01-01") seeded_store))
              eq_refl)
    as (R' & Hres & Hget & _ & _ & _ & _ & _ & _ & Hdate & _ & _ & Hcomment
        & _ & _ & _ & _ & Htables & _).
  exists R'. split; [exact Hres|]. split; [exact Hget|].
  split; [exact (proj1 Hcomment _ eq_refl)|].
  split; [exact (proj2 Hdate eq_refl) | exact Htables].
Defined.

(** ** Re-evaluation of the table on delete *)

Lemma today_active_spec today r :
  today_active today r = true
  <-> Reservation.date r = today /\ Reservation.status r = "active".
Proof.
  unfold today_active. now rewrite andb_true_iff, !String.eqb_eq.
Qed.

Lemma filter_nil_iff {A} (p : A -> bool) (l : list A) :
  filter p l = [] <-> forall a, In a l -> p a = false.
Proof.
  induction l as [|x l IH]; simpl; [tauto|].
  destruct (p x) eqn:E.
  - split; [discriminate|]. intros H. specialize (H x (or_introl eq_refl)).
    congruence.
  - rewrite IH. split.
    + intros H a [<-|Ha]; auto.
    + intros H a Ha. apply H. now right.
Qed.

(** What [deleteReservation] does to an existing reservation, by whether a
    remaining reservation of the same table is active and dated today. *)
Lemma deleteReservation_cases this today id R :
  JsMap.get id (reservations this) = Some R ->
  let tableId := Reservation.tableId R in
  let this' := snd (deleteReservation today id this) in
  let remaining := fst (getReservationsByTable tableId this') in
  fst (deleteReservation today id this) = true
  /\ reservations this' = JsMap.delete id (reservations this)
  /\ ((forall r, In r remaining ->
         ~ (Reservation.date r = today /\ Reservation.status r = "active")) ->
      this' = snd (updateTableStatus tableId "available"
                     (reservation_removed this id)))
  /\ ((exists r, In r remaining
                 /\ Reservation.date r = today /\ Reservation.status r = "active") ->
      this' = reservation_removed this id).
Proof.
  intros Hget tableId this' remaining.
  subst this' remaining. rewrite deleteReservation_run, Hget. simpl.
  fold tableId.
  set (rest := filter (fun reservation => Reservation.tableId reservation =? tableId)
                      (JsMap.values (JsMap.delete id (reservations this)))).
  assert (Hres : forall s, reservations s = JsMap.delete id (reservations this) ->
            filter (fun reservation => Reservation.tableId reservation =? tableId)
                   (JsMap.values (reservations s)) = rest).
  { intros s ->. reflexivity. }
  destruct (filter (today_active today) rest) as [|r0 l] eqn:E.
  - assert (Hframe := updateTable_frame (reservation_removed this id) tableId
                        (PartialInsertTable.of_status "available")).
    simpl in Hframe. destruct Hframe as (Hr & _).
    split; [reflexivity|]. split; [exact Hr|]. split; [reflexivity|].
    intros (r & Hin & Hdate & Hstatus). exfalso.
    unfold updateTableStatus in Hin. rewrite (Hres _ Hr) in Hin.
    rewrite filter_nil_iff in E. specialize (E r Hin).
    assert (today_active today r = true) by now apply today_active_spec.
    congruence.
  - split; [reflexivity|]. split; [reflexivity|]. split; [|reflexivity].
    intros Hnone. exfalso. simpl in Hnone. fold rest in Hnone.
    assert (Hin : In r0 (filter (today_active today) rest)).
    { rewrite E. now left. }
    apply filter_In in Hin as [Hin Hact].
    apply today_active_spec in Hact. exact (Hnone r0 Hin Hact).
Qed.

(** The reservations that [getReservationsByTable] returns are the listed
    reservations whose table id is the one asked for. *)
Lemma getReservationsByTable_In this tableId r :
  In r (fst (getReservationsByTable tableId this))
  <-> In r (fst (getReservations this)) /\ Reservation.tableId r = tableId.
Proof. simpl. rewrite filter_In, Z.eqb_eq. tauto. Qed.

(** The same two cases, with the remaining reservations of the table read
    off the listing of the store after the call. *)
Lemma deleteReservation_cases_listed this today id R :
  JsMap.get id (reservations this) = Some R ->
  let tableId := Reservation.tableId R in
  let this' := snd (deleteReservation today id this) in
  let remaining r :=
    In r (fst (getReservations this')) /\ Reservation.tableId r = tableId in
  fst (deleteReservation today id this) = true
  /\ reservations this' = JsMap.delete id (reservations this)
  /\ ((forall r, remaining r ->
         ~ (Reservation.date r = today /\ Reservation.status r = "active")) ->
      this' = snd (updateTableStatus tableId "available"
                     (reservation_removed this id)))
  /\ ((exists r, remaining r
                 /\ Reservation.date r = today /\ Reservation.status r = "active") ->
      this' = reservation_removed this id).
Proof.
  intros Hget tableId this' remaining.
  destruct (deleteReservation_cases this today id Hget)
    as (Hret & Hres & Hnone & Hsome).
  fold tableId this' in Hret, Hres, Hnone, Hsome.
  split; [exact Hret|]. split; [exact Hres|]. split.
  - intros Hno. apply Hnone. intros r Hin.
    apply getReservationsByTable_In in Hin. now apply Hno.
  - intros (r & Hrem & Hact). apply Hsome. exists r.
    split; [now apply getReservationsByTable_In | exact Hact].
Qed.

(** C2.  After [deleteReservation(R.id)] on an existing reservation [R]: if
    no remaining reservation of [R]'s table (no reservation still listed
    whose table id is [R]'s) is dated today and active, the table's status
    is set to ["available"]; otherwise every table record is as before. *)
Theorem deleteReservation_reevaluates_table :
  forall (this : MemStorage) (today : string) (id : Z) (R : Reservation.t),
    fst (getReservation id this) = Some R ->
    let tableId := Reservation.tableId R in
    let this' := snd (deleteReservation today id this) in
    let remaining r :=
      In r (fst (getReservations this')) /\ Reservation.tableId r = tableId in
    fst (deleteReservation today id this) = true
    /\ fst (getReservation id this') = None
    /\ reservations this' = JsMap.delete id (reservations this)
    /\ ((forall r, remaining r ->
           ~ (Reservation.date r = today /\ Reservation.status r = "active")) ->
        (forall T, fst (getTable tableId this) = Some T ->
           exists T',
             fst (getTable tableId this') = Some T'
             /\ Table.status T' = "available"
             /\ T' = PartialInsertTable.spread T
                       (PartialInsertTable.of_status "available"))
        /\ (fst (getTable tableId this) = None -> tables this' = tables this)
        /\ (forall k, k <> tableId ->
              fst (getTable k this') = fst (getTable k this)))
    /\ ((exists r, remaining r
                   /\ Reservation.date r = today
                   /\ Reservation.status r = "active") ->
        tables this' = tables this).
Proof.
  intros this today id R Hget tableId this' remaining. simpl in Hget.
  destruct (deleteReservation_cases_listed this today id Hget)
    as (Hret & Hres & Hnone & Hsome).
  fold tableId this' remaining in Hret, Hres, Hnone, Hsome.
  split; [exact Hret|]. split; [|split; [exact Hres|split]].
  - simpl. rewrite Hres. apply JsMapFacts.get_delete_same.
  - intros Hno. specialize (Hnone Hno). rewrite Hnone.
    unfold updateTableStatus. rewrite updateTable_run. simpl.
    split; [|split].
    + intros T HT. rewrite HT. simpl. eexists.
      split; [apply JsMapFacts.get_set_same|]. split; reflexivity.
    + intros HT. now rewrite HT.
    + intros k Hk. destruct (JsMap.get tableId (tables this)); simpl; [|easy].
      now apply JsMapFacts.get_set_other.
  - intros Hex. now rewrite (Hsome Hex).
Qed.

(** The two cases of the specification: deleting the only active booking of
    today frees the table; deleting one of two leaves the tables alone. *)
Lemma deleteReservation_reevaluates_table_witness :
  (exists T',
     fst (getTable 1 (snd (deleteReservation "2024-01-01" 1 booked_store)))
     = Some T'
     /\ Table.status T' = "available")
  /\ tables (snd (deleteReservation "2024-01-01" 1 twice_booked_store))
     = tables twice_booked_store.
Proof.
  split.
  - destruct (@deleteReservation_reevaluates_table booked_store "2024-01-01" 1
                (fst (createReservation 0 (booking 1 "2024-01-01") seeded_store))
                eq_refl)
      as (_ & _ & _ & Hnone & _).
    destruct Hnone as (Hset & _).
    + intros r [Hin _]. vm_compute in Hin. contradiction.
    + destruct (Hset _ eq_refl) as (T' & HT' & Hstatus & _).
      exists T'. split; [exact HT' | exact Hstatus].
  - destruct (@deleteReservation_reevaluates_table twice_booked_store
                "2024-01-01" 1
                (fst (createReservation 0 (booking 1 "2024-01-01") seeded_store))
                eq_refl)
      as (_ & _ & _ & _ & Hsome).
    apply Hsome.
    exists (fst (createReservation 0 (booking 1 "2024-01-01") booked_store)).
    split; [split; [vm_compute; left; reflexivity | reflexivity]|].
    split; reflexivity.
Defined.

(** With two tables booked for today, deleting the booking of the first
    frees the first and leaves the second reserved: only the reservations of
    the deleted one's table count. *)
Lemma deleteReservation_frees_only_its_table :
  let this :=
    run [CreateTable seed_table;
         CreateReservation 0 (booking 1 "2024-01-01");
         CreateReservation 0 (booking 2 "2024-01-01")] seeded_store in
  map (fun T => (Table.id T, Table.status T))
      (fst (getTables (snd (deleteReservation "2024-01-01" 1 this))))
  = [(1, "available"); (2, "reserved")].
Proof. reflexivity. Qed.

(** C3, amended.  Deleting a reservation [R] dated on another day than today
    leaves the record of [R]'s table unchanged when a remaining reservation
    of that table is active and dated today; when there is none, the table's
    status becomes ["available"].  So the status is unchanged exactly when
    such a reservation remains or the table was already ["available"]. *)
Theorem deleteReservation_other_date :
  forall (this : MemStorage) (today : string) (id : Z) (R : Reservation.t)
         (T : Table.t),
    fst (getReservation id this) = Some R ->
    Reservation.date R <> today ->
    fst (getTable (Reservation.tableId R) this) = Some T ->
    let tableId := Reservation.tableId R in
    let this' := snd (deleteReservation today id this) in
    let remaining r :=
      In r (fst (getReservations this')) /\ Reservation.tableId r = tableId in
    let today_active_remains :=
      exists r, remaining r
                /\ Reservation.date r = today
                /\ Reservation.status r = "active" in
    exists T',
      fst (getTable tableId this') = Some T'
      /\ (today_active_remains -> T' = T)
      /\ (~ today_active_remains -> Table.status T' = "available")
      /\ (Table.status T' = Table.status T <->
          today_active_remains \/ Table.status T = "available").
Proof.
  intros this today id R T Hget Hdate HT tableId this' remaining remains.
  simpl in Hget, HT.
  destruct (deleteReservation_cases_listed this today id Hget)
    as (_ & _ & Hnone & Hsome).
  fold tableId this' remaining in Hnone, Hsome.
  assert (Hdec : remains \/ ~ remains).
  { subst remains remaining.
    destruct (filter (today_active today)
                (fst (getReservationsByTable tableId this')))
      as [|r0 l] eqn:E.
    - right. intros (r & Hrem & Hact).
      apply getReservationsByTable_In in Hrem.
      rewrite filter_nil_iff in E. specialize (E r Hrem).
      apply today_active_spec in Hact. congruence.
    - left. exists r0.
      assert (Hin : In r0 (filter (today_active today)
                             (fst (getReservationsByTable tableId this')))).
      { rewrite E. now left. }
      apply filter_In in Hin as [Hin Hact].
      apply getReservationsByTable_In in Hin.
      apply today_active_spec in Hact. tauto. }
  destruct Hdec as [Hyes|Hno].
  - exists T. simpl. rewrite (Hsome Hyes). split; [exact HT|].
    split; [reflexivity|]. split; [contradiction|]. tauto.
  - assert (Hfreed : this' = snd (updateTableStatus tableId "available"
                                    (reservation_removed this id))).
    { apply Hnone. intros r Hin Hact. apply Hno. exists r.
      split; [exact Hin | exact Hact]. }
    exists (PartialInsertTable.spread T (PartialInsertTable.of_status "available")).
    split; [|split; [contradiction|]].
    + simpl. rewrite Hfreed. now apply updateTableStatus_get.
    + split; [reflexivity|]. simpl.
      split; [intros <-; now right|].
      intros [Hyes| ->]; [contradiction | reflexivity].
Qed.

Lemma deleteReservation_other_date_witness :
  exists T',
    fst (getTable 1 (snd (deleteReservation "2024-01-02" 1 booked_store)))
    = Some T'
    /\ Table.status T' = "available".
Proof.
  destruct (@deleteReservation_other_date booked_store "2024-01-02" 1
              (fst (createReservation 0 (booking 1 "2024-01-01") seeded_store))
              (PartialInsertTable.spread (fst (createTable seed_table empty_store))
                 (PartialInsertTable.of_status "reserved")))
    as (T' & HT' & _ & Hfree & _).
  - reflexivity.
  - discriminate.
  - reflexivity.
  - exists T'. split; [exact HT'|]. apply Hfree.
    intros (r & [Hin _] & _). vm_compute in Hin. contradiction.
Defined.

(** C3, as stated, fails in the scenario of the specification: one table,
    reserved by a single booking for 2024-01-01; deleting that booking on
    2024-01-02 turns the table from ["reserved"] to ["available"]. *)
Lemma deleteReservation_other_date_counterexample :
  option_map Reservation.date (fst (getReservation 1 booked_store))
  = Some "2024-01-01"
  /\ "2024-01-01" <> "2024-01-02"
  /\ option_map Table.status (fst (getTable 1 seeded_store)) = Some "available"
  /\ option_map Table.status (fst (getTable 1 booked_store)) = Some "reserved"
  /\ option_map Table.status
       (fst (getTable 1 (snd (deleteReservation "2024-01-02" 1 booked_store))))
     = Some "available"
  /\ option_map Table.status
       (fst (getTable 1 (snd (deleteReservation "2024-01-02" 1 booked_store))))
     <> option_map Table.status (fst (getTable 1 booked_store)).
Proof.
  split; [reflexivity|]. split; [discriminate|]. split; [reflexivity|].
  split; [reflexivity|]. split; [reflexivity|]. vm_compute. discriminate.
Qed.

(** ** Time windows *)

(** C4, amended.  [createReservation] stores the start and the end time
    whatever [hasTimeLimit] is: each is null exactly when the input leaves it
    unset, null or empty, and is the supplied value otherwise, so never an
    empty string.  A record created with [hasTimeLimit] false or unset thus
    has neither time when the input supplies none, as in every input the
    reservation form builds with its time limit switched off. *)
Theorem createReservation_time_window :
  forall (this : MemStorage) (now : Z) (R : InsertReservation.t),
    let res := fst (createReservation now R this) in
    Reservation.startTime res <> Some EmptyString
    /\ Reservation.endTime res <> Some EmptyString
    /\ (Reservation.startTime res = None <->
        InsertReservation.startTime R = None
        \/ InsertReservation.startTime R = Some EmptyString)
    /\ (Reservation.endTime res = None <->
        InsertReservation.endTime R = None
        \/ InsertReservation.endTime R = Some EmptyString)
    /\ (forall s, s <> EmptyString -> InsertReservation.startTime R = Some s ->
                  Reservation.startTime res = Some s)
    /\ (forall s, s <> EmptyString -> InsertReservation.endTime R = Some s ->
                  Reservation.endTime res = Some s)
    /\ (forall data,
          let res' :=
            fst (createReservation now (reservationData false data) this) in
          Reservation.hasTimeLimit res' = false
          /\ Reservation.startTime res' = None
          /\ Reservation.endTime res' = None).
Proof.
  intros this now R res. subst res. rewrite createReservation_fst. simpl.
  assert (Hnull : forall o : option string,
    or_null o <> Some EmptyString
    /\ (or_null o = None <-> o = None \/ o = Some EmptyString)
    /\ (forall s, s <> EmptyString -> o = Some s -> or_null o = Some s)).
  { intros [s|]; unfold or_null, falsy, Falsy_string.
    - destruct (String.eqb_spec s EmptyString) as [->|Hne].
      + split; [discriminate|]. split; [tauto|]. intros s Hs [= <-]. easy.
      + split; [congruence|]. split.
        * split; [discriminate|]. intros [H|H]; congruence.
        * intros s' _ H. exact H.
    - split; [discriminate|]. split; [tauto|]. discriminate. }
  destruct (Hnull (InsertReservation.startTime R)) as (Hs1 & Hs2 & Hs3).
  destruct (Hnull (InsertReservation.endTime R)) as (He1 & He2 & He3).
  repeat (split; [assumption|]).
  intros data. rewrite createReservation_fst. simpl. auto.
Qed.

(** C4, as stated, fails: a time window supplied with [hasTimeLimit] false is
    stored as it is. *)
Lemma createReservation_time_window_counterexample :
  let res :=
    fst (createReservation 0 (booking_with_window 1 "2024-01-01") seeded_store)
  in
  InsertReservation.hasTimeLimit (booking_with_window 1 "2024-01-01")
  = Some false
  /\ Reservation.hasTimeLimit res = false
  /\ Reservation.startTime res = Some "19:00"
  /\ Reservation.endTime res = Some "21:00"
  /\ ~ (Reservation.startTime res = None /\ Reservation.endTime res = None).
Proof.
  split; [reflexivity|]. split; [reflexivity|]. split; [reflexivity|].
  split; [reflexivity|]. vm_compute. intros [H _]. discriminate.
Qed.

Lemma createReservation_time_window_witness :
  let res :=
    fst (createReservation 0 (booking_with_window 1 "2024-01-01") seeded_store)
  in
  Reservation.startTime res = Some "19:00"
  /\ Reservation.startTime
       (fst (createReservation 0
               (reservationData false (booking_with_window 1 "2024-01-01"))
               seeded_store))
     = None.
Proof.
  destruct (@createReservation_time_window seeded_store 0
              (booking_with_window 1 "2024-01-01"))
    as (_ & _ & _ & _ & Hstart & _ & Hform).
  split.
  - apply (Hstart "19:00"); [discriminate | reflexivity].
  - exact (proj1 (proj2 (Hform (booking_with_window 1 "2024-01-01")))).
Defined.

(** The other way to a stale window: switching the time limit off with
    [updateReservation] keeps the start and end time of the record. *)
Lemma updateReservation_keeps_window :
  let limited := reservationData true (booking_with_window 1 "2024-01-01") in
  let this := snd (createReservation 0 limited seeded_store) in
  let off :=
    PartialInsertReservation.mk None None None None None None None None None
                                (Some false) None None in
  option_map
    (fun r => (Reservation.hasTimeLimit r, Reservation.startTime r,
               Reservation.endTime r))
    (fst (updateReservation 1 off this))
  = Some (false, Some "19:00", Some "21:00").
Proof. reflexivity. Qed.

(** The sample reservations of a fresh store carry no time window. *)
Lemma constructor_no_window today now :
  Forall (fun r => Reservation.hasTimeLimit r = false
                   /\ Reservation.startTime r = None
                   /\ Reservation.endTime r = None)
         (fst (getReservations (constructor today now))).
Proof. cbv. repeat constructor. Qed.

(** * Further properties of the store *)

(** ** Updating a table *)

(** Overwriting an entry by a value with the same id keeps the ids of the
    listing, in order. *)
Lemma ids_set_present {V} (id_of : V -> Z) k (v old : V) (m : JsMap.t V) :
  JsMap.get k m = Some old -> id_of v = id_of old ->
  map id_of (JsMap.values (JsMap.set k v m)) = map id_of (JsMap.values m).
Proof.
  intros Hget Hid. induction m as [|[k' v'] m IH]; simpl in *; [discriminate|].
  destruct (k' =? k); simpl.
  - injection Hget as ->. now rewrite Hid.
  - now rewrite IH.
Qed.

(** X1.  [updateTable(id, updates)] on an existing id returns the old table
    with exactly the supplied fields replaced and its id kept; [getTable(id)]
    then finds it; the other tables, the reservations and the counters are
    untouched, and the listing keeps its ids in the same order. *)
Theorem updateTable_merges_fields :
  forall (this : MemStorage) (id : Z) (updates : PartialInsertTable.t)
         (T : Table.t),
    fst (getTable id this) = Some T ->
    let this' := snd (updateTable id updates this) in
    exists T',
      fst (updateTable id updates this) = Some T'
      /\ fst (getTable id this') = Some T'
      /\ Table.id T' = Table.id T
      /\ field_merged (Table.number T) (Table.number T')
                      (PartialInsertTable.number updates)
      /\ field_merged (Table.name T) (Table.name T')
                      (PartialInsertTable.name updates)
      /\ field_merged (Table.capacity T) (Table.capacity T')
                      (PartialInsertTable.capacity updates)
      /\ field_merged (Table.x T) (Table.x T') (PartialInsertTable.x updates)
      /\ field_merged (Table.y T) (Table.y T') (PartialInsertTable.y updates)
      /\ field_merged (Table.width T) (Table.width T')
                      (PartialInsertTable.width updates)
      /\ field_merged (Table.height T) (Table.height T')
                      (PartialInsertTable.height updates)
      /\ field_merged (Table.status T) (Table.status T')
                      (PartialInsertTable.status updates)
      /\ field_merged (Table.shape T) (Table.shape T')
                      (PartialInsertTable.shape updates)
      /\ field_merged (Table.hallId T) (Table.hallId T')
                      (PartialInsertTable.hallId updates)
      /\ (forall id', id' <> id ->
            fst (getTable id' this') = fst (getTable id' this))
      /\ map Table.id (fst (getTables this'))
         = map Table.id (fst (getTables this))
      /\ reservations this' = reservations this
      /\ currentTableId this' = currentTableId this
      /\ currentReservationId this' = currentReservationId this.
Proof.
  intros this id updates T Hget this'. simpl in Hget. subst this'.
  rewrite updateTable_run, Hget. simpl.
  assert (Hmerged : forall A (old : A) u, field_merged old (spread_key old u) u).
  { intros A old [v|]; split; simpl; congruence. }
  eexists. split; [reflexivity|].
  split; [apply JsMapFacts.get_set_same|]. split; [reflexivity|].
  do 10 (split; [apply Hmerged|]).
  split; [|split; [|repeat split]].
  - intros id' Hne. now apply JsMapFacts.get_set_other.
  - now apply ids_set_present with (old := T).
Qed.

Lemma updateTable_merges_fields_witness :
  exists T',
    fst (updateTable 1 (PartialInsertTable.of_status "occupied") seeded_store)
    = Some T'
    /\ Table.status T' = "occupied"
    /\ Table.capacity T' = 2
    /\ Table.id T' = 1.
Proof.
  destruct (@updateTable_merges_fields seeded_store 1
              (PartialInsertTable.of_status "occupied")
              (fst (createTable seed_table empty_store)) eq_refl)
    as (T' & Hres & _ & Hid & _ & _ & Hcap & _ & _ & _ & _ & Hstatus & _).
  exists T'. split; [exact Hres|].
  split; [exact (proj1 Hstatus _ eq_refl)|].
  split; [exact (proj2 Hcap eq_refl) | exact Hid].
Defined.

(** X2.  An update of something that does not exist reports it and writes
    nothing: [updateTable] and [updateTableStatus] on an unknown table id and
    [updateReservation] on an unknown reservation id return [undefined] and
    leave the whole store as it was. *)
Theorem update_missing_is_noop :
  forall (this : MemStorage) (id : Z),
    (fst (getTable id this) = None ->
     (forall updates, updateTable id updates this = (None, this))
     /\ (forall status, updateTableStatus id status this = (None, this)))
    /\ (fst (getReservation id this) = None ->
        forall updates, updateReservation id updates this = (None, this)).
Proof.
  intros this id. simpl. split.
  - intros Hnone. split; intros; unfold updateTableStatus;
      now rewrite updateTable_run, Hnone.
  - intros Hnone updates. now rewrite updateReservation_run, Hnone.
Qed.

Lemma update_missing_is_noop_witness :
  updateTableStatus 7 "occupied" seeded_store = (None, seeded_store)
  /\ updateReservation 1 (PartialInsertReservation.of_comment None) seeded_store
     = (None, seeded_store).
Proof.
  destruct (@update_missing_is_noop seeded_store 7) as [Htable _].
  destruct (@update_missing_is_noop seeded_store 1) as [_ Hres].
  split.
  - exact (proj2 (Htable eq_refl) "occupied").
  - exact (Hres eq_refl (PartialInsertReservation.of_comment None)).
Defined.

(** ** Ids over a run *)

Lemma currentReservationId_exec c this :
  currentReservationId this <= currentReservationId (exec c this).
Proof.
  assert (Hupd : forall s id updates,
    currentReservationId (snd (updateTable id updates s))
    = currentReservationId s).
  { intros s id updates. apply updateTable_frame. }
  destruct c; simpl.
  - lia.
  - rewrite Hupd. lia.
  - unfold updateTableStatus. rewrite Hupd. lia.
  - rewrite createReservation_run. simpl.
    unfold updateTableStatus. rewrite Hupd. simpl. lia.
  - rewrite updateReservation_run.
    destruct (JsMap.get id (reservations this)); simpl; lia.
  - rewrite deleteReservation_run.
    destruct (JsMap.get id (reservations this)); simpl; [|lia].
    destruct (filter _ _); simpl; [|lia].
    unfold updateTableStatus. rewrite Hupd. simpl. lia.
Qed.

Lemma currentReservationId_run cs this :
  currentReservationId this <= currentReservationId (run cs this).
Proof.
  revert this. induction cs as [|c cs IH]; intros this; simpl; [lia|].
  specialize (IH (exec c this)).
  pose proof (currentReservationId_exec c this). lia.
Qed.

(** X3.  Reservation ids are never reused: whatever calls come in between,
    deletions included, a later [createReservation] returns an id greater
    than the one an earlier [createReservation] returned. *)
Theorem reservation_ids_never_reused :
  forall (this : MemStorage) (now now' : Z) (R R' : InsertReservation.t)
         (cs : list Call),
    let first := createReservation now R this in
    let later := createReservation now' R' (run cs (snd first)) in
    Reservation.id (fst first) = currentReservationId this
    /\ Reservation.id (fst first) < Reservation.id (fst later).
Proof.
  intros this now now' R R' cs first later. subst first later.
  rewrite !createReservation_fst. simpl. split; [reflexivity|].
  pose proof (currentReservationId_run cs
                (snd (createReservation now R this))) as Hmono.
  rewrite createReservation_run in Hmono. simpl in Hmono.
  unfold updateTableStatus in Hmono.
  destruct (updateTable_frame
              (reservation_stored this (currentReservationId this)
                 (fst (createReservation now R this)))
              (InsertReservation.tableId R)
              (PartialInsertTable.of_status "reserved")) as (_ & _ & Hctr).
  rewrite Hctr in Hmono. simpl in Hmono.
  rewrite createReservation_run. simpl. unfold updateTableStatus. lia.
Qed.

(** X4.  Tables are never removed: a table id that [getTable] finds is still
    found after any sequence of calls. *)
Theorem tables_never_removed :
  forall (this : MemStorage) (cs : list Call) (k : Z),
    fst (getTable k this) <> None ->
    fst (getTable k (run cs this)) <> None.
Proof.
  intros this cs. revert this.
  induction cs as [|c cs IH]; intros this k Hk; simpl; [exact Hk|].
  apply IH. simpl in *.
  rewrite JsMapFacts.get_None_key in *.
  intros Hnot. apply Hk. intros Hin. apply Hnot.
  now apply table_ids_persist.
Qed.

Lemma tables_never_removed_witness :
  fst (getTable 1
         (run [CreateReservation 0 (booking 1 "2024-01-01");
               DeleteReservation "2024-01-01" 1;
               UpdateTable 1 (PartialInsertTable.of_status "occupied")]
              seeded_store))
  <> None.
Proof.
  apply (@tables_never_removed seeded_store
           [CreateReservation 0 (booking 1 "2024-01-01");
            DeleteReservation "2024-01-01" 1;
            UpdateTable 1 (PartialInsertTable.of_status "occupied")] 1).
  vm_compute. discriminate.
Defined.

(** ** Deleting twice *)

(** X5.  Deleting is idempotent: after [deleteReservation(id)], whether it
    found the reservation or not, a second [deleteReservation(id)] returns
    [false] and changes nothing, not even a table status. *)
Theorem deleteReservation_twice :
  forall (this : MemStorage) (today today' : string) (id : Z),
    let this' := snd (deleteReservation today id this) in
    fst (getReservation id this') = None
    /\ deleteReservation today' id this' = (false, this').
Proof.
  intros this today today' id this'.
  assert (Hgone : JsMap.get id (reservations this') = None).
  { subst this'. destruct (JsMap.get id (reservations this)) as [R|] eqn:E.
    - destruct (deleteReservation_cases this today id E) as (_ & Hres & _).
      rewrite Hres. apply JsMapFacts.get_delete_same.
    - now rewrite deleteReservation_run, E. }
  split; [exact Hgone|]. now rewrite deleteReservation_run, Hgone.
Qed.

(** ** Ids, lookups and listings *)

Lemma keyed_below_ids {V} (id_of : V -> Z) next (m : JsMap.t V) :
  keyed_below id_of next m -> map id_of (JsMap.values m) = JsMap.keys m.
Proof.
  intros [Hall _]. induction Hall as [|[k v] m [Hid _] _ IH]; simpl; [easy|].
  simpl in Hid. now rewrite Hid, IH.
Qed.

(** The id the counter will assign next is not in use. *)
Lemma keyed_below_fresh {V} (id_of : V -> Z) next (m : JsMap.t V) :
  keyed_below id_of next m -> JsMap.get next m = None.
Proof.
  intros Hk. destruct (JsMap.get next m) as [v|] eqn:E; [|reflexivity].
  destruct (keyed_below_get _ Hk E) as [_ Hlt]. lia.
Qed.

Lemma keyed_below_lookup {V} (id_of : V -> Z) next (m : JsMap.t V) v :
  keyed_below id_of next m ->
  (In v (JsMap.values m) <-> JsMap.get (id_of v) m = Some v).
Proof.
  intros Hk. split.
  - now apply keyed_below_In_values with (next := next).
  - intros Hget. apply JsMapFacts.get_In in Hget.
    now apply (in_map snd) in Hget.
Qed.

Lemma updateTable_keys this id updates :
  JsMap.keys (tables (snd (updateTable id updates this)))
  = JsMap.keys (tables this).
Proof.
  rewrite updateTable_run.
  destruct (JsMap.get id (tables this)) eqn:E; simpl; [|reflexivity].
  now rewrite JsMapFacts.keys_set, E.
Qed.

Lemma ids_upto_S n : ids_upto (S n) = ids_upto n ++ [Z.of_nat n + 1].
Proof.
  unfold ids_upto. rewrite seq_S, map_app. simpl. f_equal. f_equal. lia.
Qed.

Lemma ids_upto_bound n k : In k (ids_upto n) -> 1 <= k <= Z.of_nat n.
Proof.
  unfold ids_upto. rewrite in_map_iff. intros (x & <- & Hx).
  apply in_seq in Hx. lia.
Qed.

(** One call keeps the table ids contiguous. *)
Lemma contiguous_exec c this n :
  JsMap.keys (tables this) = ids_upto n ->
  currentTableId this = Z.of_nat n + 1 ->
  exists n', (n <= n')%nat
    /\ JsMap.keys (tables (exec c this)) = ids_upto n'
    /\ currentTableId (exec c this) = Z.of_nat n' + 1.
Proof.
  intros Hkeys Hctr.
  assert (Hsame : forall s,
    tables s = tables this -> currentTableId s = currentTableId this ->
    forall id updates,
    exists n', (n <= n')%nat
      /\ JsMap.keys (tables (snd (updateTable id updates s))) = ids_upto n'
      /\ currentTableId (snd (updateTable id updates s)) = Z.of_nat n' + 1).
  { intros s Ht Hc id updates. exists n. split; [lia|].
    rewrite updateTable_keys, Ht.
    destruct (updateTable_frame s id updates) as (_ & Hc' & _).
    rewrite Hc', Hc. auto. }
  destruct c; simpl.
  - exists (S n). split; [lia|]. split; [|lia].
    rewrite JsMapFacts.keys_set.
    destruct (JsMap.get (currentTableId this) (tables this)) eqn:E.
    + apply JsMapFacts.get_Some_key in E. rewrite Hkeys in E.
      apply ids_upto_bound in E. lia.
    + now rewrite Hkeys, Hctr, ids_upto_S.
  - now apply Hsame.
  - now apply Hsame.
  - rewrite createReservation_run. simpl. now apply Hsame.
  - exists n. rewrite updateReservation_run.
    destruct (JsMap.get id (reservations this)); simpl; auto.
  - rewrite deleteReservation_run.
    destruct (JsMap.get id (reservations this)); simpl; [|exists n; auto].
    destruct (filter _ _); [now apply Hsame | exists n; auto].
Qed.

(** X6.  In every reachable state the table ids are [1, 2, ..., n], in the
    order of the listing, for some [n] of at least the 15 seeded tables, and
    the next id to assign is [n + 1]. *)
Theorem reachable_table_ids_contiguous :
  forall this : MemStorage,
    reachable this ->
    exists n : nat,
      (15 <= n)%nat
      /\ map Table.id (fst (getTables this)) = ids_upto n
      /\ currentTableId this = Z.of_nat n + 1.
Proof.
  intros this Hreach.
  assert (Hkeys : exists n, (15 <= n)%nat
            /\ JsMap.keys (tables this) = ids_upto n
            /\ currentTableId this = Z.of_nat n + 1).
  { induction Hreach as [today now | c this Hreach IH].
    - exists 15%nat. split; [lia|]. split; reflexivity.
    - destruct IH as (n & Hn & Hk & Hc).
      destruct (@contiguous_exec c this n Hk Hc) as (n' & Hle & Hk' & Hc').
      exists n'. split; [lia | auto]. }
  destruct Hkeys as (n & Hn & Hk & Hc). exists n.
  split; [exact Hn|]. split; [|exact Hc].
  destruct (reachable_store_ok Hreach) as [Ht _].
  simpl. now rewrite (keyed_below_ids Ht).
Qed.

Lemma reachable_table_ids_contiguous_witness :
  exists n : nat,
    (15 <= n)%nat
    /\ map Table.id
         (fst (getTables (exec (CreateTable seed_table)
                               (constructor "2024-06-01" 0))))
       = ids_upto n
    /\ currentTableId (exec (CreateTable seed_table)
                            (constructor "2024-06-01" 0))
       = Z.of_nat n + 1.
Proof.
  apply (@reachable_table_ids_contiguous
           (exec (CreateTable seed_table) (constructor "2024-06-01" 0))).
  apply reachable_call. apply reachable_new.
Defined.

(** X7.  In every reachable state the listings and the lookups agree: a
    table is listed exactly when [getTable] finds it under its own id, a
    reservation exactly when [getReservation] does, and no id occurs twice in
    either listing. *)
Theorem reachable_lookup_agrees_with_listing :
  forall this : MemStorage,
    reachable this ->
    (forall T, In T (fst (getTables this)) <->
               fst (getTable (Table.id T) this) = Some T)
    /\ (forall R, In R (fst (getReservations this)) <->
                  fst (getReservation (Reservation.id R) this) = Some R)
    /\ NoDup (map Table.id (fst (getTables this)))
    /\ NoDup (map Reservation.id (fst (getReservations this))).
Proof.
  intros this Hreach. destruct (reachable_store_ok Hreach) as [Ht Hr].
  simpl. split; [|split; [|split]].
  - intros T. now apply keyed_below_lookup with (next := currentTableId this).
  - intros R.
    now apply keyed_below_lookup with (next := currentReservationId this).
  - rewrite (keyed_below_ids Ht). apply Ht.
  - rewrite (keyed_below_ids Hr). apply Hr.
Qed.

Lemma reachable_lookup_agrees_with_listing_witness :
  NoDup (map Reservation.id
           (fst (getReservations
                   (exec (DeleteReservation "2024-06-01" 2)
                         (constructor "2024-06-01" 0))))).
Proof.
  apply (@reachable_lookup_agrees_with_listing
           (exec (DeleteReservation "2024-06-01" 2)
                 (constructor "2024-06-01" 0))).
  apply reachable_call. apply reachable_new.
Defined.

(** ** Creating appends *)

(** X8.  In a store that satisfies the representation invariant,
    [createReservation] never overwrites: the id it assigns was not in use,
    the new reservation comes last in the listing, every other reservation
    is found as before, and no table other than the booked one changes. *)
Theorem createReservation_appends :
  forall (this : MemStorage) (now : Z) (R : InsertReservation.t),
    store_ok this ->
    let res := fst (createReservation now R this) in
    let this' := snd (createReservation now R this) in
    fst (getReservation (Reservation.id res) this) = None
    /\ fst (getReservations this') = fst (getReservations this) ++ [res]
    /\ (forall id', id' <> Reservation.id res ->
          fst (getReservation id' this') = fst (getReservation id' this))
    /\ (forall k, k <> InsertReservation.tableId R ->
          fst (getTable k this') = fst (getTable k this))
    /\ map Table.id (fst (getTables this')) = map Table.id (fst (getTables this))
    /\ currentTableId this' = currentTableId this.
Proof.
  intros this now R [Ht Hr] res this'.
  pose proof (keyed_below_fresh Hr) as Hfresh.
  assert (Hid : Reservation.id res = currentReservationId this).
  { subst res. now rewrite createReservation_fst. }
  assert (Hthis' : this' = snd (updateTableStatus (InsertReservation.tableId R)
                                  "reserved"
                                  (reservation_stored this
                                     (currentReservationId this) res))).
  { subst this' res. now rewrite createReservation_run. }
  unfold updateTableStatus in Hthis'.
  destruct (updateTable_frame
              (reservation_stored this (currentReservationId this) res)
              (InsertReservation.tableId R)
              (PartialInsertTable.of_status "reserved")) as (Hres & Hctr & _).
  rewrite <- Hthis' in Hres, Hctr. simpl in Hres, Hctr.
  simpl. rewrite Hid, Hres.
  split; [exact Hfresh|].
  split; [now apply JsMapFacts.values_set_fresh|].
  split; [intros id' Hne; now apply JsMapFacts.get_set_other|].
  split; [|split; [|exact Hctr]].
  - intros k Hk. rewrite Hthis', updateTable_run. simpl.
    destruct (JsMap.get (InsertReservation.tableId R) (tables this)); simpl;
      [now apply JsMapFacts.get_set_other | reflexivity].
  - rewrite Hthis', updateTable_run. simpl.
    destruct (JsMap.get (InsertReservation.tableId R) (tables this)) eqn:E;
      simpl; [|reflexivity].
    now apply ids_set_present with (old := t).
Qed.

Lemma createReservation_appends_witness :
  fst (getReservations twice_booked_store)
  = fst (getReservations booked_store)
    ++ [fst (createReservation 0 (booking 1 "2024-01-01") booked_store)].
Proof.
  assert (Hok : store_ok booked_store).
  { apply store_ok_createReservation, store_ok_createTable.
    split; split; simpl; constructor. }
  exact (proj1 (proj2 (@createReservation_appends booked_store 0
                         (booking 1 "2024-01-01") Hok))).
Defined.

(** X9.  In a store that satisfies the representation invariant,
    [createTable] never overwrites: the id it assigns was not in use, the new
    table comes last in the listing, every other table is found as before,
    and the reservations are untouched. *)
Theorem createTable_appends :
  forall (this : MemStorage) (fields : InsertTable.t),
    store_ok this ->
    let T := fst (createTable fields this) in
    let this' := snd (createTable fields this) in
    fst (getTable (Table.id T) this) = None
    /\ fst (getTables this') = fst (getTables this) ++ [T]
    /\ (forall k, k <> Table.id T ->
          fst (getTable k this') = fst (getTable k this))
    /\ reservations this' = reservations this
    /\ currentReservationId this' = currentReservationId this.
Proof.
  intros this fields [Ht Hr] T this'.
  pose proof (keyed_below_fresh Ht) as Hfresh. simpl.
  split; [exact Hfresh|].
  split; [now apply JsMapFacts.values_set_fresh|].
  split; [|split; reflexivity].
  intros k Hk. now apply JsMapFacts.get_set_other.
Qed.

Lemma createTable_appends_witness :
  fst (getTables (snd (createTable seed_table seeded_store)))
  = fst (getTables seeded_store) ++ [fst (createTable seed_table seeded_store)].
Proof.
  assert (Hok : store_ok seeded_store).
  { apply store_ok_createTable. split; split; simpl; constructor. }
  exact (proj1 (proj2 (@createTable_appends seeded_store seed_table Hok))).
Defined.

(** ** Booking and cancelling *)



(** ** Deleting keeps the rest *)

Lemma values_delete_keyed {V} (id_of : V -> Z) next k (m : JsMap.t V) :
  keyed_below id_of next m ->
  JsMap.values (JsMap.delete k m)
  = filter (fun v => negb (id_of v =? k)) (JsMap.values m).
Proof.
  intros [Hall _]. induction Hall as [|[k0 v0] m [Hid _] _ IH]; simpl; [easy|].
  simpl in Hid. rewrite Hid.
  destruct (k0 =? k); simpl; now rewrite IH.
Qed.

(** X11.  In a store that satisfies the representation invariant,
    [deleteReservation] of an existing reservation removes that reservation
    and nothing else: the listing is the old one without it, in the same
    order; every other reservation is found as before; no table other than
    the reservation's own changes; the counters stay. *)
Theorem deleteReservation_keeps_the_rest :
  forall (this : MemStorage) (today : string) (id : Z) (R : Reservation.t),
    store_ok this ->
    fst (getReservation id this) = Some R ->
    let this' := snd (deleteReservation today id this) in
    fst (getReservations this')
    = filter (fun r => negb (Reservation.id r =? id)) (fst (getReservations this))
    /\ (forall id', id' <> id ->
          fst (getReservation id' this') = fst (getReservation id' this))
    /\ (forall k, k <> Reservation.tableId R ->
          fst (getTable k this') = fst (getTable k this))
    /\ map Table.id (fst (getTables this')) = map Table.id (fst (getTables this))
    /\ currentTableId this' = currentTableId this
    /\ currentReservationId this' = currentReservationId this.
Proof.
  intros this today id R [Ht Hr] Hget this'. simpl in Hget.
  destruct (deleteReservation_cases this today id Hget)
    as (_ & Hres & _ & _).
  fold this' in Hres.
  assert (Htables : this' = reservation_removed this id
                    \/ this' = snd (updateTable (Reservation.tableId R)
                                      (PartialInsertTable.of_status "available")
                                      (reservation_removed this id))).
  { subst this'. rewrite deleteReservation_run, Hget. simpl.
    destruct (filter _ _); [right | left]; reflexivity. }
  simpl. rewrite Hres.
  split; [now apply values_delete_keyed with (next := currentReservationId this)|].
  split; [intros id' Hne; now apply JsMapFacts.get_delete_other|].
  destruct Htables as [-> | ->]; [simpl; auto|].
  destruct (updateTable_frame (reservation_removed this id)
              (Reservation.tableId R)
              (PartialInsertTable.of_status "available")) as (_ & Hc1 & Hc2).
  split; [|split; [|split; [exact Hc1 | exact Hc2]]].
  - intros k Hk. rewrite updateTable_run. simpl.
    destruct (JsMap.get (Reservation.tableId R) (tables this)); simpl;
      [now apply JsMapFacts.get_set_other | reflexivity].
  - rewrite updateTable_run. simpl.
    destruct (JsMap.get (Reservation.tableId R) (tables this)) eqn:E; simpl;
      [|reflexivity].
    now apply ids_set_present with (old := t).
Qed.

Lemma deleteReservation_keeps_the_rest_witness :
  map Reservation.id
    (fst (getReservations
            (snd (deleteReservation "2024-06-01" 2
                    (constructor "2024-06-01" 0)))))
  = [1; 3].
Proof.
  destruct (@deleteReservation_keeps_the_rest (constructor "2024-06-01" 0)
              "2024-06-01" 2
              (Reservation.mk 2 3 "Мария Козлова" "+7 (999) 765-43-21" 2
                 "2024-06-01" "12:15" 90 None "active" false None None 0)
              (store_ok_constructor "2024-06-01" 0) eq_refl) as (Hlist & _).
  rewrite Hlist. reflexivity.
Defined.

(** ** The composite view and orphans *)



(** ** The form's table choice after a booking *)

Lemma createReservation_tables this now R :
  tables (snd (createReservation now R this))
  = match JsMap.get (InsertReservation.tableId R) (tables this) with
    | Some T =>
        JsMap.set (InsertReservation.tableId R)
                  (PartialInsertTable.spread T
                     (PartialInsertTable.of_status "reserved"))
                  (tables this)
    | None => tables this
    end.
Proof.
  rewrite createReservation_run. simpl. unfold updateTableStatus.
  rewrite updateTable_run. simpl.
  now destruct (JsMap.get (InsertReservation.tableId R) (tables this)).
Qed.

(** X13.  Once a reservation is created for a table, the reservation form no
    longer offers that table: [availableTables], computed from the store's
    table listing after [createReservation], holds no table with the booked
    id, and holds any other table exactly when it did before. *)
Theorem booked_table_not_offered :
  forall (this : MemStorage) (now : Z) (R : InsertReservation.t) (T : Table.t),
    store_ok this ->
    In T (fst (getTables this)) ->
    InsertReservation.tableId R = Table.id T ->
    let this' := snd (createReservation now R this) in
    (forall T', In T' (availableTables (Some (fst (getTables this')))) ->
                Table.id T' <> Table.id T)
    /\ (forall T', Table.id T' <> Table.id T ->
          (In T' (availableTables (Some (fst (getTables this')))) <->
           In T' (availableTables (Some (fst (getTables this)))))).
Proof.
  intros this now R T Hok HT Hid this'.
  assert (Hok' : store_ok this') by now apply store_ok_createReservation.
  destruct Hok as [Ht _]. destruct Hok' as [Ht' _].
  pose proof (keyed_below_In_values _ Ht HT) as Hget.
  assert (Htables : tables this'
                    = JsMap.set (Table.id T)
                        (PartialInsertTable.spread T
                           (PartialInsertTable.of_status "reserved"))
                        (tables this)).
  { subst this'. now rewrite createReservation_tables, Hid, Hget. }
  assert (Hlist : forall T',
    In T' (JsMap.values (tables this')) <->
    JsMap.get (Table.id T') (tables this') = Some T').
  { intros T'. now apply keyed_below_lookup with (next := currentTableId this'). }
  assert (Hlist0 : forall T',
    In T' (JsMap.values (tables this)) <->
    JsMap.get (Table.id T') (tables this) = Some T').
  { intros T'. now apply keyed_below_lookup with (next := currentTableId this). }
  simpl. split.
  - intros T' HT' Heq. apply filter_In in HT' as [Hin Hst].
    apply Hlist in Hin. rewrite Htables, Heq in Hin.
    rewrite JsMapFacts.get_set_same in Hin. injection Hin as <-.
    simpl in Hst. discriminate.
  - intros T' Hne. rewrite !filter_In, Hlist, Hlist0, Htables.
    now rewrite JsMapFacts.get_set_other.
Qed.

Lemma booked_table_not_offered_witness :
  availableTables (Some (fst (getTables seeded_store)))
  = [fst (createTable seed_table empty_store)]
  /\ forall T', In T' (availableTables (Some (fst (getTables booked_store)))) ->
                Table.id T' <> 1.
Proof.
  split; [reflexivity|].
  assert (Hok : store_ok seeded_store).
  { apply store_ok_createTable. split; split; simpl; constructor. }
  exact (proj1 (@booked_table_not_offered seeded_store 0
                  (booking 1 "2024-01-01")
                  (fst (createTable seed_table empty_store))
                  Hok (or_introl eq_refl) eq_refl)).
Defined.

(** ** Updating keeps the place in the listing *)


